(** * RFM customer segmentation: a shallow embedding of
      [src/python/customer_segmentation.py] and the properties of its
      pipeline (metric calculation, score binning, rule classification,
      cluster-count selection, segment aggregation, recommendations).

    Conventions of the embedding.
    - Python [int] values are [Z]; pandas [float64] columns are modelled by
      exact rationals [Q] (no rounding error of the binary representation is
      modelled; [DataFrame.round(2)] is modelled exactly, half to even).
      The statements that relate a rounded column to the value it rounds
      are therefore bounds and order relations, which do not depend on how
      a value half-way between two cents is rounded.
    - A pandas [Timestamp] is its number of nanoseconds since the epoch; a
      [Timedelta] holds its nanoseconds in an int64, and a difference of
      timestamps outside that range raises.
    - A Python exception is a value of [exn]; code that can raise returns
      [result]. *)

From Stdlib Require Import ZArith QArith Qround Qminmax Qabs Lia Lqa List.
From Stdlib Require Import Sorting.Sorted Permutation OrderedTypeEx.
From stdpp Require Import base option list strings gmap sorting.
Import ListNotations.

Local Open Scope string_scope.
Local Open Scope list_scope.
Local Open Scope Z_scope.

(** ** Exceptions and fallible computations *)

(** [ValueError] and [IndexError] are the Python built-ins that the library
    calls and the indexing of the source raise.  [OutOfBounds] is the
    exception that pandas raises when a difference of timestamps does not
    fit a [Timedelta] ([OutOfBoundsDatetime] or [OutOfBoundsTimedelta], by
    the version of pandas).  [InvalidInputError], [InsufficientDataError] and
    [ConfigurationError] are the names of the specification's error taxonomy;
    no statement of the source raises them. *)
Inductive exn : Type :=
  | ValueError
  | IndexError
  | OutOfBounds
  | InvalidInputError
  | InsufficientDataError
  | ConfigurationError.

Inductive result (A : Type) : Type :=
  | Ok (a : A)
  | Raise (e : exn).
Arguments Ok {A} a.
Arguments Raise {A} e.

#[global] Instance result_ret : MRet result := fun A a => Ok a.
#[global] Instance result_bind : MBind result := fun A B f m =>
  match m with
  | Ok a => f a
  | Raise e => Raise e
  end.

(** ** Data model *)

(** One row of [self.customer_data], restricted to the three columns that
    [calculate_rfm] reads; the date column holds timestamps. *)
Record Transaction : Type := mkTransaction {
  customer_id : Z;
  transaction_date : Z;
  transaction_amount : Q
}.

(** One row of [rfm_data] after line 151: the grouping key and the three
    aggregated columns. *)
Record CustomerMetrics : Type := mkMetrics {
  rfm_customer_id : Z;
  Recency : Z;
  Frequency : Z;
  Monetary : Q
}.

(** The row extended with the columns of lines 154-162. *)
Record ScoredCustomer : Type := mkScored {
  metrics : CustomerMetrics;
  R_Score : Z;
  F_Score : Z;
  M_Score : Z;
  RFM_Score : Q
}.

(** The row extended with the [Segment] column of line 189. *)
Record SegmentedCustomer : Type := mkSegmented {
  scored : ScoredCustomer;
  Segment : string
}.

(** ** pandas and numpy primitives called by the pipeline *)

(** [Timedelta.days]: whole days of a difference of nanosecond timestamps,
    rounded towards minus infinity. *)
Definition ns_per_day : Z := 86400 * 1000000000.

Definition days (delta : Z) : Z := delta / ns_per_day.

(** [Series.max()] of a datetime column; [None] is [NaT], the value on an
    empty column. *)
Definition series_max (x : list Z) : option Z :=
  match x with
  | [] => None
  | d :: rest => Some (fold_left Z.max rest d)
  end.

(** [Series.sum()] *)
Fixpoint series_sum (x : list Q) : Q :=
  match x with
  | [] => 0%Q
  | a :: rest => (a + series_sum rest)%Q
  end.

(** [Series.mean()] of a non-empty column. *)
Definition series_mean (x : list Q) : Q :=
  (series_sum x / inject_Z (Z.of_nat (length x)))%Q.

(** [np.rint]: the nearest integer, halves to the even neighbour. *)
Definition rint (q : Q) : Z :=
  let f := Qfloor q in
  match (q - inject_Z f ?= 1 # 2)%Q with
  | Lt => f
  | Gt => f + 1
  | Eq => if Z.even f then f else f + 1
  end.

(** [DataFrame.round(2)] on a float column: scale by 100, [rint], scale
    back. *)
Definition round2 (q : Q) : Q := (inject_Z (rint (q * 100)) / 100)%Q.

Definition Qltb (x y : Q) : bool := negb (Qle_bool y x).

Definition count_if {A : Type} (p : A -> bool) (l : list A) : Z :=
  Z.of_nat (length (List.filter p l)).

(** [Series.rank(method='first')]: one plus the number of strictly smaller
    values, plus the number of equal values at earlier positions. *)
Definition rank_first (x : list Q) : list Q :=
  imap (fun i v =>
          inject_Z (1 + count_if (fun w => Qltb w v) x
                      + count_if (fun w => Qeq_bool w v) (take i x))) x.

(** [np.linspace(start, stop, num, endpoint=True)] for [num >= 2]: the
    multiples of the step added to [start], the last sample set to [stop]. *)
Definition linspace (start stop : Q) (num : nat) : list Q :=
  let div := (num - 1)%nat in
  let step := ((stop - start) / inject_Z (Z.of_nat div))%Q in
  map (fun i => (inject_Z (Z.of_nat i) * step + start)%Q) (seq 0 div) ++ [stop].

(** [_nbins_to_bins(x, nbins, right=True)] of [pandas.core.reshape.tile]:
    [nbins] equal-width bins over the range of [x], the range widened by
    0.1 percent on the left, or on both sides when [x] has a single value. *)
Definition nbins_to_bins (x : list Q) (nbins : nat) : result (list Q) :=
  match x with
  | [] => Raise ValueError
  | x0 :: rest =>
      let mn := fold_left Qmin rest x0 in
      let mx := fold_left Qmax rest x0 in
      if Qeq_bool mn mx then
        let mn' := (mn - (if Qeq_bool mn 0 then 1 # 1000
                          else (1 # 1000) * Qabs mn))%Q in
        let mx' := (mx + (if Qeq_bool mx 0 then 1 # 1000
                          else (1 # 1000) * Qabs mx))%Q in
        Ok (linspace mn' mx' (nbins + 1))
      else
        let adj := ((mx - mn) * (1 # 1000))%Q in
        match linspace mn mx (nbins + 1) with
        | [] => Ok []
        | b0 :: bins => Ok ((b0 - adj)%Q :: bins)
        end
  end.

(** [ndarray.searchsorted(v, side='left')] on an increasing array: the
    number of leading elements strictly below [v]. *)
Fixpoint searchsorted_left (a : list Q) (v : Q) : nat :=
  match a with
  | [] => 0%nat
  | b :: rest => if Qltb b v then S (searchsorted_left rest v) else 0%nat
  end.

Fixpoint has_duplicate_edges (bins : list Q) : bool :=
  match bins with
  | [] => false
  | b :: rest => existsb (Qeq_bool b) rest || has_duplicate_edges rest
  end.

(** [_bins_to_cuts(x, bins, right=True, labels=labels)]: a value in the
    interval [(bins[i-1], bins[i]]] gets [labels[i-1]]; a value outside every
    interval gets [NaN], here [None]. *)
Definition bins_to_cuts (x bins : list Q) (labels : list Z)
    : result (list (option Z)) :=
  if has_duplicate_edges bins && negb (length bins =? 2)%nat then
    Raise ValueError
  else if negb (bool_decide (NoDup labels)) then
    Raise ValueError
  else if negb (length labels =? length bins - 1)%nat then
    Raise ValueError
  else
    Ok (map (fun v =>
               let ids := searchsorted_left bins v in
               if (ids =? length bins)%nat || (ids =? 0)%nat then None
               else labels !! (ids - 1)%nat) x).

(** [pd.cut(x, bins=nbins, labels=labels)] *)
Definition pd_cut (x : list Q) (nbins : nat) (labels : list Z)
    : result (list (option Z)) :=
  bins ← nbins_to_bins x nbins;
  bins_to_cuts x bins labels.

(** [Series.astype(int)] on the categorical column: [NaN] cannot be
    converted. *)
Fixpoint astype_int (c : list (option Z)) : result (list Z) :=
  match c with
  | [] => Ok []
  | None :: _ => Raise ValueError
  | Some v :: rest => vs ← astype_int rest; Ok (v :: vs)
  end.

(** The keys of [DataFrame.groupby(col)]: the distinct values of the column
    in increasing order. *)
Section Groupby.
Context {K : Type} (cmp : K -> K -> comparison).

Fixpoint insert_key (k : K) (keys : list K) : list K :=
  match keys with
  | [] => [k]
  | k' :: rest =>
      match cmp k k' with
      | Lt => k :: keys
      | Eq => keys
      | Gt => k' :: insert_key k rest
      end
  end.

Definition groupby_keys (col : list K) : list K :=
  fold_right insert_key [] col.
End Groupby.

(** ** Metric calculator (lines 131-151) *)

(** [Timedelta.max.value]: the largest number of nanoseconds of a
    [Timedelta]; the smallest is its opposite. *)
Definition Timedelta_max : Z := 2 ^ 63 - 1.

(** Whether [Timestamp - Timestamp] raises: the difference does not fit a
    [Timedelta].  (The difference [- 2 ^ 63], the bit pattern of [NaT], is
    counted as out of range.) *)
Definition timedelta_overflows (delta : Z) : bool :=
  (delta <? - Timedelta_max) || (Timedelta_max <? delta).

(** The aggregation of the date column,
    [lambda x: (analysis_date - x.max()).days], when the difference fits a
    [Timedelta].  Either date is [NaT] only on an empty frame, which has no
    group to aggregate. *)
Definition recency_of (analysis_date : option Z) (x : list Z) : Z :=
  match analysis_date, series_max x with
  | Some a, Some m => days (a - m)
  | _, _ => 0
  end.

(** The rows of one group of [groupby(customer_col)]. *)
Definition customer_group (customer_data : list Transaction) (c : Z)
    : list Transaction :=
  filter (fun t => customer_id t = c) customer_data.

(** The table of lines 143-151 when no subtraction raises: one row per
    group, in increasing order of the key. *)
Definition rfm_metrics (analysis_date : option Z)
    (customer_data : list Transaction) : list CustomerMetrics :=
  let analysis_date :=
    match analysis_date with
    | None => series_max (map transaction_date customer_data)
    | Some d => Some d
    end in
  map (fun c =>
         let group := customer_group customer_data c in
         mkMetrics c
           (recency_of analysis_date (map transaction_date group))
           (Z.of_nat (length group))
           (round2 (series_sum (map transaction_amount group))))
      (groupby_keys Z.compare (map customer_id customer_data)).

(** The aggregation of line 143 as it runs: the subtraction in the lambda of
    the date column raises for a group whose latest timestamp is too far
    from the analysis date; otherwise the table is [rfm_metrics]. *)
Definition aggregate_rfm (analysis_date : option Z)
    (customer_data : list Transaction) : result (list CustomerMetrics) :=
  let now :=
    match analysis_date with
    | None => series_max (map transaction_date customer_data)
    | Some d => Some d
    end in
  let raises (c : Z) :=
    match now, series_max (map transaction_date
                             (customer_group customer_data c)) with
    | Some a, Some m => timedelta_overflows (a - m)
    | _, _ => false
    end in
  if existsb raises (groupby_keys Z.compare (map customer_id customer_data))
  then Raise OutOfBounds
  else Ok (rfm_metrics analysis_date customer_data).

(** ** Score binner (lines 153-162) *)

Definition score_columns (rfm_data : list CustomerMetrics)
    : result (list Z * list Z * list Z) :=
  r ← pd_cut (map (fun c => inject_Z (Recency c)) rfm_data) 5 [5; 4; 3; 2; 1]
      ≫= astype_int;
  f ← pd_cut (rank_first (map (fun c => inject_Z (Frequency c)) rfm_data))
        5 [1; 2; 3; 4; 5] ≫= astype_int;
  m ← pd_cut (rank_first (map Monetary rfm_data)) 5 [1; 2; 3; 4; 5]
      ≫= astype_int;
  Ok (r, f, m).

(** ** Rule classifier (lines 165-187) *)

Definition segment_customers (row : ScoredCustomer) : string :=
  if (R_Score row >=? 4) && (F_Score row >=? 4) && (M_Score row >=? 4) then
    "Champions"
  else if (F_Score row >=? 4) && (M_Score row >=? 4) then
    "Loyal Customers"
  else if (R_Score row >=? 4) && (F_Score row >=? 3) then
    "Potential Loyalists"
  else if (R_Score row >=? 4) && (F_Score row <=? 2) then
    "New Customers"
  else if (R_Score row >=? 3) && (F_Score row >=? 2) && (M_Score row >=? 2) then
    "Promising"
  else if (R_Score row >=? 3) && (F_Score row >=? 3) then
    "Need Attention"
  else if (R_Score row =? 2) && (F_Score row >=? 2) && (M_Score row >=? 2) then
    "About to Sleep"
  else if (M_Score row >=? 4) && (R_Score row <=? 2) then
    "At Risk"
  else if (M_Score row >=? 4) && (R_Score row =? 1) then
    "Cannot Lose Them"
  else if (R_Score row <=? 2) && (F_Score row >=? 2) then
    "Hibernating"
  else
    "Lost".

(** The eleven string literals returned by [segment_customers], in the order
    of its [return] statements. *)
Definition segment_labels : list string :=
  [ "Champions"; "Loyal Customers"; "Potential Loyalists"; "New Customers";
    "Promising"; "Need Attention"; "About to Sleep"; "At Risk";
    "Cannot Lose Them"; "Hibernating"; "Lost" ].

(** The rule table as the specification words it (section 4.3): an ordered
    list of (predicate, label) pairs over the three scores, tried in sequence,
    the first match wins, and [Lost] when none matches. *)
Definition spec_rules : list ((Z -> Z -> Z -> bool) * string) :=
  [ (fun r f m => (4 <=? r) && (4 <=? f) && (4 <=? m), "Champions");
    (fun r f m => (4 <=? f) && (4 <=? m),              "Loyal Customers");
    (fun r f m => (4 <=? r) && (3 <=? f),              "Potential Loyalists");
    (fun r f m => (4 <=? r) && (f <=? 2),              "New Customers");
    (fun r f m => (3 <=? r) && (2 <=? f) && (2 <=? m), "Promising");
    (fun r f m => (3 <=? r) && (3 <=? f),              "Need Attention");
    (fun r f m => (r =? 2) && (2 <=? f) && (2 <=? m),  "About to Sleep");
    (fun r f m => (4 <=? m) && (r <=? 2),              "At Risk");
    (fun r f m => (4 <=? m) && (r =? 1),               "Cannot Lose Them");
    (fun r f m => (r <=? 2) && (2 <=? f),              "Hibernating") ].

Fixpoint first_match (rules : list ((Z -> Z -> Z -> bool) * string))
    (r f m : Z) : string :=
  match rules with
  | [] => "Lost"
  | (p, label) :: rest => if p r f m then label else first_match rest r f m
  end.

(** ** [calculate_rfm] (lines 131-194) *)

Definition add_scores (row : CustomerMetrics * (Z * (Z * Z)))
    : ScoredCustomer :=
  let '(c, (r, (f, m))) := row in
  mkScored c r f m (inject_Z (r + f + m) / 3)%Q.

Definition add_segment (row : ScoredCustomer) : SegmentedCustomer :=
  mkSegmented row (segment_customers row).

Definition calculate_rfm (analysis_date : option Z)
    (customer_data : list Transaction) : result (list SegmentedCustomer) :=
  rfm_data ← aggregate_rfm analysis_date customer_data;
  '(r, f, m) ← score_columns rfm_data;
  Ok (map add_segment
        (map add_scores (zip rfm_data (zip r (zip f m))))).

(** ** Cluster selector (lines 242-259) *)

(** [range(start, stop)] *)
Definition py_range (start stop : Z) : list Z :=
  map (fun i => start + Z.of_nat i) (seq 0 (Z.to_nat (stop - start))).

Fixpoint argmax_from (best : Q) (best_i i : nat) (a : list Q) : nat :=
  match a with
  | [] => best_i
  | v :: rest =>
      if Qltb best v then argmax_from v i (S i) rest
      else argmax_from best best_i (S i) rest
  end.

(** [np.argmax]: the index of the first occurrence of the maximum; an empty
    sequence has none. *)
Definition np_argmax (a : list Q) : result nat :=
  match a with
  | [] => Raise ValueError
  | v :: rest => Ok (argmax_from v 0 1 rest)
  end.

Section ClusterSelector.
(** The two scikit-learn calls, as the source configures them:
    [KMeans(n_clusters=k, random_state=42, n_init=10).fit_predict(data)]
    with the fitted [inertia_], and [silhouette_score(data, labels)].
    Both can raise. *)
Variable KMeans_fit_predict : Z -> list (list Q) -> result (list Z * Q).
Variable silhouette_score : list (list Q) -> list Z -> result Q.

(** The body of the loop for one candidate [k]. *)
Definition evaluate_candidate (data : list (list Q)) (k : Z)
    : result (Q * Q) :=
  '(cluster_labels, inertia) ← KMeans_fit_predict k data;
  s ← silhouette_score data cluster_labels;
  Ok (inertia, s).

(** The loop: the lists [inertias] and [silhouette_scores] after the
    candidates have been visited in order. *)
Fixpoint evaluate_candidates (data : list (list Q)) (k_range : list Z)
    : result (list Q * list Q) :=
  match k_range with
  | [] => Ok ([], [])
  | k :: rest =>
      '(inertia, s) ← evaluate_candidate data k;
      '(inertias, silhouette_scores) ← evaluate_candidates data rest;
      Ok (inertia :: inertias, s :: silhouette_scores)
  end.

(** The entry of [silhouette_scores] that candidate [k] contributes. *)
Definition candidate_silhouette (data : list (list Q)) (k : Z) : result Q :=
  '(inertia, s) ← evaluate_candidate data k;
  Ok s.

(** [perform_kmeans_clustering] calls it when [n_clusters] is [None], with
    the scaled features and the default [max_clusters=10]. *)
Definition _find_optimal_clusters (data : list (list Q)) (max_clusters : Z)
    : result Z :=
  let k_range :=
    py_range 2 (Z.min (max_clusters + 1) (Z.of_nat (length data))) in
  '(inertias, silhouette_scores) ← evaluate_candidates data k_range;
  i ← np_argmax silhouette_scores;
  match k_range !! i with
  | Some optimal_k => Ok optimal_k
  | None => Raise IndexError
  end.
End ClusterSelector.

(** ** Segment aggregator (lines 261-282) *)

(** One row of [rfm_segment_summary]; the index is the segment label, the
    column [customer_id] holds the count and the other columns hold means. *)
Record SegmentSummary : Type := mkSummary {
  summary_Segment : string;
  summary_customer_id : Z;
  summary_Recency : Q;
  summary_Frequency : Q;
  summary_Monetary : Q;
  summary_RFM_Score : Q;
  Percentage : Q
}.

Definition segment_members (rfm_data : list SegmentedCustomer)
    (label : string) : list SegmentedCustomer :=
  filter (fun c => Segment c = label) rfm_data.

Definition summarize (rfm_data : list SegmentedCustomer) (label : string)
    : SegmentSummary :=
  let group := segment_members rfm_data label in
  let count := Z.of_nat (length group) in
  let col (f : SegmentedCustomer -> Q) := round2 (series_mean (map f group)) in
  mkSummary label count
    (col (fun c => inject_Z (Recency (metrics (scored c)))))
    (col (fun c => inject_Z (Frequency (metrics (scored c)))))
    (col (fun c => Monetary (metrics (scored c))))
    (col (fun c => RFM_Score (scored c)))
    (round2 (inject_Z count / inject_Z (Z.of_nat (length rfm_data)) * 100)%Q).

(** [DataFrame.sort_values(column, ascending=False)]: rows by decreasing
    value of the column.  Rows of equal value keep their previous order here;
    the default sorting kind of pandas does not promise an order for them,
    and no statement below depends on it. *)
Fixpoint insert_desc {A : Type} (key : A -> Q) (a : A) (sorted : list A)
    : list A :=
  match sorted with
  | [] => [a]
  | b :: rest =>
      if Qle_bool (key b) (key a) then a :: sorted
      else b :: insert_desc key a rest
  end.

Definition sort_values_desc {A : Type} (key : A -> Q) (rows : list A)
    : list A :=
  fold_right (insert_desc key) [] rows.

(** The [rfm_segments] entry of the result; [None] when [calculate_rfm] has
    not run.  (The [cluster_segments] entry is not embedded.) *)
Definition analyze_segments (rfm_data : option (list SegmentedCustomer))
    : option (list SegmentSummary) :=
  match rfm_data with
  | None => None
  | Some rfm_data =>
      let rfm_segment_summary :=
        map (summarize rfm_data)
            (groupby_keys String.compare (map Segment rfm_data)) in
      Some (sort_values_desc summary_Monetary rfm_segment_summary)
  end.

(** The quantity the specification sorts by: the total of the monetary
    values of the members of a segment. *)
Definition segment_total_monetary (rfm_data : list SegmentedCustomer)
    (label : string) : Q :=
  series_sum (map (fun c => Monetary (metrics (scored c)))
                  (segment_members rfm_data label)).


(** ** Marketing recommendations (lines 305-361) *)

Record Recommendation : Type := mkRecommendation {
  description : string;
  strategy : string;
  actions : list string
}.

Definition recommendations : gmap string Recommendation :=
  list_to_map
  [ ("Champions", mkRecommendation
       "Best customers with high RFM scores"
       "VIP treatment, exclusive offers, loyalty rewards"
       ["Premium customer service"; "Early access to new products";
        "Personalized offers"; "Loyalty program benefits"]);
    ("Loyal Customers", mkRecommendation
       "High frequency and monetary value customers"
       "Upsell premium products, cross-sell, loyalty program"
       ["Product recommendations"; "Cross-selling campaigns";
        "Loyalty point bonuses"; "Premium upgrades"]);
    ("Potential Loyalists", mkRecommendation
       "Recent customers with good frequency"
       "Membership offers, engagement campaigns"
       ["Engagement sequences"; "Product education";
        "Membership invitations"; "Social proof"]);
    ("New Customers", mkRecommendation
       "Recent but low frequency customers"
       "Onboarding sequence, welcome offers"
       ["Welcome series"; "Onboarding tutorials";
        "First purchase incentives"; "Product discovery"]);
    ("At Risk", mkRecommendation
       "High value but declining engagement"
       "Win-back campaigns, special offers"
       ["Reactivation campaigns"; "Exclusive discounts";
        "Personal outreach"; "Feedback surveys"]);
    ("Cannot Lose Them", mkRecommendation
       "Highest value customers at risk of churning"
       "Immediate intervention, premium support"
       ["Personal account manager"; "Exclusive previews";
        "Special retention offers"; "Direct communication"]);
    ("Hibernating", mkRecommendation
       "Previously active, now dormant"
       "Win-back series, incentive offers"
       ["Re-engagement campaigns"; "Comeback offers";
        "Product updates"; "Limited-time promotions"]);
    ("Lost", mkRecommendation
       "Lowest RFM scores, likely churned"
       "Basic promotional offers, surveys"
       ["Exit surveys"; "Basic promotional emails";
        "Win-back attempts"; "Competitive analysis"]) ].

(** [self.rfm_data] is [None] until [calculate_rfm] has run. *)
Definition generate_marketing_recommendations
    (rfm_data : option (list SegmentedCustomer))
    : option (gmap string Recommendation) :=
  match rfm_data with
  | None => None
  | Some _ => Some recommendations
  end.

(** ** Vocabulary of the statements *)

(** The strict order of a three-way comparison. *)
Definition key_lt {K : Type} (cmp : K -> K -> comparison) (x y : K) : Prop :=
  cmp x y = Lt.


Definition is_score (v : Z) : Prop := 1 <= v <= 5.

Definition in_score_range (row : ScoredCustomer) : Prop :=
  is_score (R_Score row) /\ is_score (F_Score row) /\ is_score (M_Score row).

(** The reference date of the recency: the argument when one is given,
    otherwise the latest timestamp of the data. *)
Definition is_analysis_date (analysis_date : option Z)
    (customer_data : list Transaction) (now : Z) : Prop :=
  match analysis_date with
  | Some d => now = d
  | None => now ∈ map transaction_date customer_data /\
            Forall (fun d => d <= now) (map transaction_date customer_data)
  end.

(** The largest candidate of the cluster selector with its default
    [max_clusters=10]: min(10, population size - 1). *)
Definition max_candidate (data : list (list Q)) : Z :=
  Z.min 10 (Z.of_nat (length data) - 1).

(** The keys of the [recommendations] dict, in the order of the literal. *)
Definition recommended_labels : list string :=
  [ "Champions"; "Loyal Customers"; "Potential Loyalists"; "New Customers";
    "At Risk"; "Cannot Lose Them"; "Hibernating"; "Lost" ].

(** ** Sample inputs *)

(** A row carrying the given scores. *)
Definition score_row (r f m : Z) : ScoredCustomer :=
  mkScored (mkMetrics 0 0 0 0) r f m (inject_Z (r + f + m) / 3).


(** Four customers, one purchase each, ten days apart. *)
Definition four_customers : list Transaction :=
  [ mkTransaction 1 (0 * ns_per_day) 10;
    mkTransaction 2 (10 * ns_per_day) 20;
    mkTransaction 3 (20 * ns_per_day) 30;
    mkTransaction 4 (30 * ns_per_day) 40 ].

(** Five customers, one purchase each: three early purchases of 70, 60 and
    50, and two recent ones of 10 and 100. *)
Definition five_customers : list Transaction :=
  [ mkTransaction 1 (0 * ns_per_day) 70;
    mkTransaction 2 (1 * ns_per_day) 60;
    mkTransaction 3 (2 * ns_per_day) 50;
    mkTransaction 4 (29 * ns_per_day) 10;
    mkTransaction 5 (30 * ns_per_day) 100 ].

(** One customer with two purchases in the year 1823, a day apart. *)
Definition old_customer : list Transaction :=
  [ mkTransaction 7 (- 2 ^ 62) 10;
    mkTransaction 7 (- 2 ^ 62 + ns_per_day) 20 ].


(** Two total stand-ins for the scikit-learn calls, to run the selector on
    concrete data: rows are labelled round-robin, and an assignment is scored
    by a tenth of its largest label. *)
Definition round_robin_kmeans (k : Z) (data : list (list Q))
    : result (list Z * Q) :=
  Ok (imap (fun i _ => Z.of_nat i mod k) data, 0%Q).

Definition largest_label_score (data : list (list Q)) (labels : list Z)
    : result Q :=
  Ok (inject_Z (fold_right Z.max 0%Z labels) / 10)%Q.

Definition two_points : list (list Q) := [[0%Q]; [1%Q]].

Definition four_points : list (list Q) := [[0%Q]; [1%Q]; [2%Q]; [3%Q]].

Definition five_points : list (list Q) :=
  [[0%Q]; [1%Q]; [2%Q]; [3%Q]; [4%Q]].

(** A scoring stand-in that prefers the assignments into three clusters, and
    one that raises on an assignment into more than two clusters. *)
Definition three_clusters_score (data : list (list Q)) (labels : list Z)
    : result Q :=
  Ok (if fold_right Z.max 0%Z labels =? 2 then 1 else 0)%Q.

Definition score_failing_above_two (data : list (list Q)) (labels : list Z)
    : result Q :=
  if 1 <? fold_right Z.max 0%Z labels then Raise ValueError
  else largest_label_score data labels.

(** ** Further vocabulary *)

(** [Series.sum()] of an integer column. *)
Definition Z_sum (x : list Z) : Z := fold_right Z.add 0 x.

(** ** K-means clustering of the scored table (lines 196-240) *)

(** [self.rfm_data] as the methods after [calculate_rfm] see it: the table
    of [calculate_rfm] and, once a clustering has assigned it, the column
    [Cluster]. *)
Record RfmFrame : Type := mkFrame {
  frame_rows : list SegmentedCustomer;
  Cluster : option (list Z)
}.

(** One row of [cluster_summary] after the column names are flattened. *)
Record ClusterSummary : Type := mkClusterSummary {
  summary_Cluster : Z;
  Recency_mean : Q;
  Recency_min : Z;
  Recency_max : Z;
  Frequency_mean : Q;
  Frequency_min : Z;
  Frequency_max : Z;
  Monetary_mean : Q;
  Monetary_min : Q;
  Monetary_max : Q;
  customer_id_count : Z
}.

(** [Series.min()] and [Series.max()] of the columns of a group; a group of
    [groupby] is never empty. *)
Definition column_min (x : list Z) : Z :=
  match x with
  | [] => 0
  | a :: rest => fold_left Z.min rest a
  end.

Definition column_max (x : list Z) : Z :=
  match x with
  | [] => 0
  | a :: rest => fold_left Z.max rest a
  end.

Definition Qcolumn_min (x : list Q) : Q :=
  match x with
  | [] => 0%Q
  | a :: rest => fold_left Qmin rest a
  end.

Definition Qcolumn_max (x : list Q) : Q :=
  match x with
  | [] => 0%Q
  | a :: rest => fold_left Qmax rest a
  end.

(** [self.rfm_data[features]] with the default
    [features=['Recency', 'Frequency', 'Monetary']]. *)
Definition clustering_data (rfm_data : list SegmentedCustomer) : list (list Q) :=
  map (fun c => [ inject_Z (Recency (metrics (scored c)));
                  inject_Z (Frequency (metrics (scored c)));
                  Monetary (metrics (scored c)) ]) rfm_data.

(** The rows of one group of [groupby('Cluster')]. *)
Definition cluster_members (rfm_data : list SegmentedCustomer)
    (cluster_labels : list Z) (k : Z) : list SegmentedCustomer :=
  map fst (filter (fun row => snd row = k) (zip rfm_data cluster_labels)).

Definition summarize_cluster (rfm_data : list SegmentedCustomer)
    (cluster_labels : list Z) (k : Z) : ClusterSummary :=
  let group := cluster_members rfm_data cluster_labels k in
  let recency := map (fun c => Recency (metrics (scored c))) group in
  let frequency := map (fun c => Frequency (metrics (scored c))) group in
  let monetary := map (fun c => Monetary (metrics (scored c))) group in
  mkClusterSummary k
    (round2 (series_mean (map inject_Z recency)))
    (column_min recency) (column_max recency)
    (round2 (series_mean (map inject_Z frequency)))
    (column_min frequency) (column_max frequency)
    (round2 (series_mean monetary))
    (round2 (Qcolumn_min monetary)) (round2 (Qcolumn_max monetary))
    (Z.of_nat (length group)).

Section KMeansClustering.
(** [self.scaler.fit_transform], and the two scikit-learn calls of the
    cluster selector. *)
Variable fit_transform : list (list Q) -> result (list (list Q)).
Variable KMeans_fit_predict : Z -> list (list Q) -> result (list Z * Q).
Variable silhouette_score : list (list Q) -> list Z -> result Q.

(** The part of the call after the guard on [self.rfm_data]: the frame
    after the call, and the returned pair or the exception.  The column
    [Cluster] is assigned before the summary and the silhouette score are
    computed; an assignment of a column of another length raises
    [ValueError]. *)
Definition cluster_frame (n_clusters : option Z) (frame : RfmFrame)
    : RfmFrame * result (list ClusterSummary * Q) :=
  let rfm_data := frame_rows frame in
  match fit_transform (clustering_data rfm_data) with
  | Raise e => (frame, Raise e)
  | Ok scaled_features =>
      match (match n_clusters with
             | None => _find_optimal_clusters KMeans_fit_predict
                         silhouette_score scaled_features 10
             | Some k => Ok k
             end) with
      | Raise e => (frame, Raise e)
      | Ok n_clusters =>
          match KMeans_fit_predict n_clusters scaled_features with
          | Raise e => (frame, Raise e)
          | Ok (cluster_labels, _) =>
              if negb (length cluster_labels =? length rfm_data)%nat then
                (frame, Raise ValueError)
              else
                let frame' := mkFrame rfm_data (Some cluster_labels) in
                let cluster_summary :=
                  map (summarize_cluster rfm_data cluster_labels)
                      (groupby_keys Z.compare cluster_labels) in
                (frame',
                 silhouette_avg ← silhouette_score scaled_features cluster_labels;
                 Ok (cluster_summary, silhouette_avg))
          end
      end
  end.

(** [self.rfm_data] is [None] before [calculate_rfm]; the call then returns
    [None]. *)
Definition perform_kmeans_clustering (n_clusters : option Z)
    (rfm_data : option RfmFrame)
    : option RfmFrame * option (result (list ClusterSummary * Q)) :=
  match rfm_data with
  | None => (None, None)
  | Some frame =>
      let '(frame', outcome) := cluster_frame n_clusters frame in
      (Some frame', Some outcome)
  end.
End KMeansClustering.

(** ** Cluster part of the segment aggregator (lines 284-296) *)

(** One row of [cluster_summary] in [analyze_segments]. *)
Record ClusterSegment : Type := mkClusterSegment {
  cluster_Cluster : Z;
  cluster_customer_id : Z;
  cluster_Recency : Q;
  cluster_Frequency : Q;
  cluster_Monetary : Q;
  cluster_Percentage : Q
}.

Definition summarize_cluster_segment (rfm_data : list SegmentedCustomer)
    (cluster_labels : list Z) (k : Z) : ClusterSegment :=
  let group := cluster_members rfm_data cluster_labels k in
  let count := Z.of_nat (length group) in
  mkClusterSegment k count
    (round2 (series_mean
       (map (fun c => inject_Z (Recency (metrics (scored c)))) group)))
    (round2 (series_mean
       (map (fun c => inject_Z (Frequency (metrics (scored c)))) group)))
    (round2 (series_mean (map (fun c => Monetary (metrics (scored c))) group)))
    (round2 (inject_Z count / inject_Z (Z.of_nat (length rfm_data)) * 100)%Q).

(** The [cluster_segments] entry of the result of [analyze_segments]: the
    call returns [None] before [calculate_rfm], and the entry is [None] when
    the frame has no column [Cluster]. *)
Definition analyze_cluster_segments (rfm_data : option RfmFrame)
    : option (option (list ClusterSegment)) :=
  match rfm_data with
  | None => None
  | Some frame =>
      Some (match Cluster frame with
            | None => None
            | Some cluster_labels =>
                Some (map (summarize_cluster_segment (frame_rows frame)
                             cluster_labels)
                          (groupby_keys Z.compare cluster_labels))
            end)
  end.

(** A stand-in for [KMeans] that raises for three clusters, and the identity
    as a stand-in for the scaler. *)
Definition kmeans_failing_at_3 (k : Z) (data : list (list Q))
    : result (list Z * Q) :=
  if k =? 3 then Raise ValueError else round_robin_kmeans k data.

Definition identity_scaler (data : list (list Q)) : result (list (list Q)) :=
  Ok data.

(** Three scored customers, for the clustering examples. *)
Definition three_rows : list SegmentedCustomer :=
  map add_segment [score_row 5 5 5; score_row 1 1 1; score_row 3 2 2].

(** ** Revenue per segment in [create_visualizations] (line 420) *)

(** [Series.sort_values()]: ascending; rows of equal value keep their
    previous order here. *)
Fixpoint insert_asc {A : Type} (key : A -> Q) (a : A) (sorted : list A)
    : list A :=
  match sorted with
  | [] => [a]
  | b :: rest =>
      if Qle_bool (key a) (key b) then a :: sorted
      else b :: insert_asc key a rest
  end.

Definition sort_values_asc {A : Type} (key : A -> Q) (rows : list A)
    : list A :=
  fold_right (insert_asc key) [] rows.

(** [self.rfm_data.groupby('Segment')['Monetary'].sum().sort_values()]: the
    series plotted as the revenue bars, as (label, total) pairs. *)
Definition segment_revenue (rfm_data : list SegmentedCustomer)
    : list (string * Q) :=
  sort_values_asc snd
    (map (fun label => (label, segment_total_monetary rfm_data label))
         (groupby_keys String.compare (map Segment rfm_data))).

(** * Properties *)

(** ** Proof automation *)

Ltac split_rules :=
  repeat match goal with
  | |- context [if ?b then _ else _] =>
      let E := fresh "E" in destruct b eqn:E
  end.

Ltac bool_to_Z :=
  repeat match goal with
  | H : _ && _ = true |- _ => apply andb_true_iff in H; destruct H
  | H : _ && _ = false |- _ => apply andb_false_iff in H
  | H : (_ >=? _) = true |- _ => rewrite Z.geb_leb in H; apply Z.leb_le in H
  | H : (_ >=? _) = false |- _ => rewrite Z.geb_leb in H; apply Z.leb_gt in H
  | H : (_ <=? _) = true |- _ => apply Z.leb_le in H
  | H : (_ <=? _) = false |- _ => apply Z.leb_gt in H
  | H : (_ =? _) = true |- _ => apply Z.eqb_eq in H
  | H : (_ =? _) = false |- _ => apply Z.eqb_neq in H
  end.

(** ** Facts about the primitives *)

Lemma result_bind_Ok {A B : Type} (a : A) (f : A -> result B) :
  Ok a ≫= f = f a.
Proof. reflexivity. Qed.

Lemma result_bind_Raise {A B : Type} (e : exn) (f : A -> result B) :
  Raise e ≫= f = Raise e.
Proof. reflexivity. Qed.

Section GroupbyFacts.
Context {K : Type} (cmp : K -> K -> comparison).
Hypothesis cmp_eq : forall x y, cmp x y = Eq -> x = y.
Hypothesis cmp_antisym : forall x y, cmp x y = CompOpp (cmp y x).
Hypothesis cmp_trans : forall x y z, cmp x y = Lt -> cmp y z = Lt -> cmp x z = Lt.

Lemma cmp_irrefl x : ~ key_lt cmp x x.
Proof.
  unfold key_lt. intros H. pose proof (cmp_antisym x x) as Ha.
  rewrite H in Ha. discriminate Ha.
Qed.

Lemma elem_of_insert_key x k keys :
  x ∈ insert_key cmp k keys <-> x = k \/ x ∈ keys.
Proof.
  induction keys as [| k' rest IH]; simpl.
  - rewrite list_elem_of_singleton, elem_of_nil. tauto.
  - destruct (cmp k k') eqn:E.
    + apply cmp_eq in E. subst k'. rewrite elem_of_cons. tauto.
    + rewrite !elem_of_cons. tauto.
    + rewrite !elem_of_cons, IH. tauto.
Qed.

Lemma insert_key_sorted k keys :
  StronglySorted (key_lt cmp) keys -> StronglySorted (key_lt cmp) (insert_key cmp k keys).
Proof.
  induction keys as [| k' rest IH]; simpl; intros Hs.
  - constructor; [constructor | constructor].
  - inversion Hs as [| ? ? Hrest Hall]; subst.
    destruct (cmp k k') eqn:E.
    + exact Hs.
    + constructor; [exact Hs |].
      constructor; [exact E |].
      eapply Forall_impl; [exact Hall |].
      intros z Hz. exact (cmp_trans _ _ _ E Hz).
    + constructor; [apply IH; exact Hrest |].
      apply Forall_forall. intros z Hz.
      apply elem_of_insert_key in Hz. destruct Hz as [-> | Hz].
      * unfold key_lt. rewrite cmp_antisym, E. reflexivity.
      * rewrite Forall_forall in Hall. apply Hall. exact Hz.
Qed.

Lemma elem_of_groupby_keys x col :
  x ∈ groupby_keys cmp col <-> x ∈ col.
Proof.
  induction col as [| k col IH]; simpl.
  - reflexivity.
  - rewrite elem_of_insert_key, elem_of_cons. unfold groupby_keys in IH.
    rewrite IH. reflexivity.
Qed.

Lemma groupby_keys_sorted col : StronglySorted (key_lt cmp) (groupby_keys cmp col).
Proof.
  induction col as [| k col IH]; simpl.
  - constructor.
  - apply insert_key_sorted. exact IH.
Qed.

Lemma StronglySorted_lt_NoDup l : StronglySorted (key_lt cmp) l -> NoDup l.
Proof.
  induction 1 as [| x l Hs IH Hall].
  - apply NoDup_nil_2.
  - apply NoDup_cons_2; [| exact IH].
    intros Hin. rewrite Forall_forall in Hall.
    exact (cmp_irrefl x (Hall x Hin)).
Qed.

Lemma groupby_keys_NoDup col : NoDup (groupby_keys cmp col).
Proof. apply StronglySorted_lt_NoDup, groupby_keys_sorted. Qed.
End GroupbyFacts.

Lemma Z_compare_trans (x y z : Z) :
  (x ?= y) = Lt -> (y ?= z) = Lt -> (x ?= z) = Lt.
Proof. rewrite !Z.compare_lt_iff. lia. Qed.

Lemma customer_keys_NoDup (col : list Z) : NoDup (groupby_keys Z.compare col).
Proof.
  apply groupby_keys_NoDup.
  - intros x y. apply Z.compare_eq.
  - intros x y. apply Z.compare_antisym.
  - apply Z_compare_trans.
Qed.


Lemma elem_of_customer_keys (c : Z) (col : list Z) :
  c ∈ groupby_keys Z.compare col <-> c ∈ col.
Proof. apply elem_of_groupby_keys. intros x y. apply Z.compare_eq. Qed.

Lemma segment_keys_NoDup (col : list string) :
  NoDup (groupby_keys String.compare col).
Proof.
  apply groupby_keys_NoDup.
  - apply String.compare_eq_iff.
  - intros x y. apply String.compare_antisym.
  - intros x y z Hxy Hyz.
    apply String_as_OT.cmp_lt. apply String_as_OT.cmp_lt in Hxy, Hyz.
    exact (String_as_OT.lt_trans _ _ _ Hxy Hyz).
Qed.

Lemma elem_of_segment_keys (s : string) (col : list string) :
  s ∈ groupby_keys String.compare col <-> s ∈ col.
Proof. apply elem_of_groupby_keys. apply String.compare_eq_iff. Qed.

Lemma fold_left_max_ge (l : list Z) (a : Z) :
  a <= fold_left Z.max l a /\ Forall (fun d => d <= fold_left Z.max l a) l.
Proof.
  revert a. induction l as [| d l IH]; intros a; simpl.
  - split; [lia | constructor].
  - destruct (IH (Z.max a d)) as [H1 H2]. split; [lia |].
    constructor; [lia | exact H2].
Qed.

Lemma fold_left_max_elem (l : list Z) (a : Z) :
  fold_left Z.max l a = a \/ fold_left Z.max l a ∈ l.
Proof.
  revert a. induction l as [| d l IH]; intros a; simpl.
  - left. reflexivity.
  - destruct (IH (Z.max a d)) as [H | H].
    + rewrite H. destruct (Z.max_spec a d) as [[_ ->] | [_ ->]].
      * right. apply list_elem_of_here.
      * left. reflexivity.
    + right. apply list_elem_of_further. exact H.
Qed.

(** [x.max()] of a non-empty column is an element of it and bounds it. *)
Lemma series_max_spec (x : list Z) :
  x <> [] ->
  exists m, series_max x = Some m /\ m ∈ x /\ Forall (fun d => d <= m) x.
Proof.
  destruct x as [| d rest]; [congruence | intros _].
  exists (fold_left Z.max rest d). simpl. split; [reflexivity |].
  destruct (fold_left_max_ge rest d) as [H1 H2]. split.
  - destruct (fold_left_max_elem rest d) as [-> | H].
    + apply list_elem_of_here.
    + apply list_elem_of_further. exact H.
  - constructor; assumption.
Qed.


Lemma rint_nonneg (q : Q) : (0 <= q)%Q -> 0 <= rint q.
Proof.
  intros Hq. unfold rint.
  assert (Hf : 0 <= Qfloor q).
  { rewrite <- (Qfloor_Z 0). apply Qfloor_resp_le. exact Hq. }
  destruct (q - inject_Z (Qfloor q) ?= 1 # 2)%Q; [destruct (Z.even _) | |]; lia.
Qed.

Lemma rint_pos (q : Q) : (1 # 2 < q)%Q -> 1 <= rint q.
Proof.
  intros Hq. unfold rint.
  assert (Hf : 0 <= Qfloor q).
  { rewrite <- (Qfloor_Z 0). apply Qfloor_resp_le.
    apply Qlt_le_weak. eapply Qlt_trans; [| exact Hq]. reflexivity. }
  destruct (Z.eq_dec (Qfloor q) 0) as [E | E].
  - rewrite E. assert (Hgt : (q - inject_Z 0 ?= 1 # 2)%Q = Gt).
    { apply Qgt_alt. unfold inject_Z. lra. }
    rewrite Hgt. lia.
  - destruct (q - inject_Z (Qfloor q) ?= 1 # 2)%Q; [destruct (Z.even _) | |]; lia.
Qed.

Lemma round2_nonneg (q : Q) : (0 <= q)%Q -> (0 <= round2 q)%Q.
Proof.
  intros Hq. unfold round2.
  assert (H : 0 <= rint (q * 100)) by (apply rint_nonneg; lra).
  apply Qle_shift_div_l; [reflexivity |].
  rewrite Qmult_0_l. change 0%Q with (inject_Z 0). rewrite <- Zle_Qle. exact H.
Qed.

Lemma round2_pos (q : Q) : (1 # 200 < q)%Q -> (0 < round2 q)%Q.
Proof.
  intros Hq. unfold round2.
  assert (H : 1 <= rint (q * 100)) by (apply rint_pos; lra).
  apply Qlt_shift_div_l; [reflexivity |].
  rewrite Qmult_0_l. change 0%Q with (inject_Z 0). rewrite <- Zlt_Qlt. lia.
Qed.

Lemma rint_error (y : Q) :
  (inject_Z (rint y) - y <= 1 # 2)%Q /\ (y - inject_Z (rint y) <= 1 # 2)%Q.
Proof.
  unfold rint.
  pose proof (Qfloor_le y) as Hlo. pose proof (Qlt_floor y) as Hhi.
  set (f := Qfloor y) in *.
  rewrite inject_Z_plus in Hhi. change (inject_Z 1) with 1%Q in Hhi.
  destruct (y - inject_Z f ?= 1 # 2)%Q eqn:E.
  - apply Qeq_alt in E.
    destruct (Z.even f); [| rewrite inject_Z_plus; change (inject_Z 1) with 1%Q];
      split; lra.
  - apply Qlt_alt in E. split; lra.
  - apply Qgt_alt in E. rewrite inject_Z_plus. change (inject_Z 1) with 1%Q.
    split; lra.
Qed.

(** Rounding to two decimals moves a value by at most 0.005. *)
Lemma round2_error (q : Q) :
  (round2 q - q <= 1 # 200)%Q /\ (q - round2 q <= 1 # 200)%Q.
Proof.
  unfold round2. destruct (rint_error (q * 100)) as [H1 H2].
  set (r := inject_Z (rint (q * 100))) in *.
  assert (Hdiv : (r / 100 * 100 == r)%Q) by field.
  split; lra.
Qed.

Lemma rint_le_int (y : Q) (k : Z) : (y <= inject_Z k)%Q -> rint y <= k.
Proof.
  intros Hy. unfold rint.
  pose proof (Qfloor_le y) as Hlo.
  set (f := Qfloor y) in *.
  assert (Hfk : f <= k) by (rewrite Zle_Qle; lra).
  destruct (Z.eq_dec f k) as [-> | Hne].
  - assert (Heq : (y - inject_Z k <= 0)%Q) by lra.
    destruct (y - inject_Z k ?= 1 # 2)%Q eqn:E.
    + apply Qeq_alt in E. lra.
    + lia.
    + apply Qgt_alt in E. lra.
  - destruct (y - inject_Z f ?= 1 # 2)%Q; [destruct (Z.even f) | |]; lia.
Qed.






(** *** Binning *)

Lemma fold_left_Qmin_le (l : list Q) (a : Q) :
  (fold_left Qmin l a <= a)%Q /\
  Forall (fun v => fold_left Qmin l a <= v)%Q l.
Proof.
  revert a. induction l as [| v l IH]; intros a; simpl.
  - split; [apply Qle_refl | constructor].
  - destruct (IH (Qmin a v)) as [H1 H2].
    pose proof (Q.le_min_l a v). pose proof (Q.le_min_r a v).
    split; [lra |]. constructor; [lra | exact H2].
Qed.

Lemma fold_left_Qmax_ge (l : list Q) (a : Q) :
  (a <= fold_left Qmax l a)%Q /\
  Forall (fun v => v <= fold_left Qmax l a)%Q l.
Proof.
  revert a. induction l as [| v l IH]; intros a; simpl.
  - split; [apply Qle_refl | constructor].
  - destruct (IH (Qmax a v)) as [H1 H2].
    pose proof (Q.le_max_l a v). pose proof (Q.le_max_r a v).
    split; [lra |]. constructor; [lra | exact H2].
Qed.

Lemma Qltb_lt (x y : Q) : Qltb x y = true <-> (x < y)%Q.
Proof.
  unfold Qltb. rewrite negb_true_iff, <- not_true_iff_false, Qle_bool_iff.
  split; [apply Qnot_le_lt | apply Qlt_not_le].
Qed.

Lemma Qltb_ge (x y : Q) : Qltb x y = false <-> (y <= x)%Q.
Proof.
  unfold Qltb. rewrite negb_false_iff. apply Qle_bool_iff.
Qed.

Lemma Qabs_pos_of_nonzero (q : Q) : ~ (q == 0)%Q -> (0 < Qabs q)%Q.
Proof.
  intros Hq. destruct (Qlt_le_dec q 0) as [Hneg | Hpos].
  - rewrite Qabs_neg by lra. lra.
  - rewrite Qabs_pos by exact Hpos.
    destruct (Qle_lt_or_eq _ _ Hpos) as [H | H]; [exact H |].
    exfalso. apply Hq. symmetry. exact H.
Qed.

(** The widening term [0.001 * abs(v) if v != 0 else 0.001] is positive. *)
Lemma widening_pos (v : Q) :
  (0 < (if Qeq_bool v 0 then 1 # 1000 else (1 # 1000) * Qabs v))%Q.
Proof.
  destruct (Qeq_bool v 0) eqn:E; [reflexivity |].
  apply Qeq_bool_neq in E. pose proof (Qabs_pos_of_nonzero v E). lra.
Qed.

Lemma linspace_6 (a b : Q) :
  let step := ((b - a) / 5)%Q in
  linspace a b 6 =
  [0 * step + a; 1 * step + a; 2 * step + a; 3 * step + a; 4 * step + a; b]%Q.
Proof. reflexivity. Qed.

Lemma increasing_6 (b0 b1 b2 b3 b4 b5 : Q) :
  (b0 < b1)%Q -> (b1 < b2)%Q -> (b2 < b3)%Q -> (b3 < b4)%Q -> (b4 < b5)%Q ->
  StronglySorted Qlt [b0; b1; b2; b3; b4; b5].
Proof.
  intros. repeat (constructor; [| repeat constructor; lra]). constructor.
Qed.

(** The edges of five bins over a non-empty column: six increasing values,
    the first strictly below every value of the column and the last not
    below any. *)
Lemma nbins_to_bins_5 (x : list Q) :
  x <> [] ->
  exists b0 rest,
    nbins_to_bins x 5 = Ok (b0 :: rest) /\
    length rest = 5%nat /\
    StronglySorted Qlt (b0 :: rest) /\
    Forall (fun v => (b0 < v)%Q /\ exists b, b ∈ rest /\ (v <= b)%Q) x.
Proof.
  destruct x as [| x0 xs]; [congruence | intros _].
  unfold nbins_to_bins.
  destruct (fold_left_Qmin_le xs x0) as [Hmn0 Hmn].
  destruct (fold_left_Qmax_ge xs x0) as [Hmx0 Hmx].
  set (mn := fold_left Qmin xs x0) in *. set (mx := fold_left Qmax xs x0) in *.
  assert (Hbounds : Forall (fun v => mn <= v /\ v <= mx)%Q (x0 :: xs)).
  { constructor; [split; assumption |].
    rewrite Forall_forall in Hmn, Hmx. apply Forall_forall.
    intros v Hv. split; [apply Hmn | apply Hmx]; exact Hv. }
  change (5 + 1)%nat with 6%nat. rewrite !linspace_6. cbv zeta.
  destruct (Qeq_bool mn mx) eqn:E.
  - pose proof (widening_pos mn) as Hwl. pose proof (widening_pos mx) as Hwr.
    set (wl := if Qeq_bool mn 0 then _ else _) in *.
    set (wr := if Qeq_bool mx 0 then _ else _) in *.
    set (step := ((mx + wr - (mn - wl)) / 5)%Q).
    assert (Hstep : (step * 5 == mx + wr - (mn - wl))%Q) by (unfold step; field).
    eexists _, _. split; [reflexivity |]. split; [reflexivity |].
    split; [apply increasing_6; lra |].
    eapply Forall_impl; [exact Hbounds |]. intros v [Hv1 Hv2]. cbv beta.
    split; [lra |]. exists (mx + wr)%Q. split; [| lra].
    do 4 apply list_elem_of_further. apply list_elem_of_here.
  - apply Qeq_bool_neq in E.
    assert (Hlt : (mn < mx)%Q).
    { destruct (Qle_lt_or_eq mn mx) as [H | H]; [lra | exact H | contradiction]. }
    set (step := ((mx - mn) / 5)%Q).
    assert (Hstep : (step * 5 == mx - mn)%Q) by (unfold step; field).
    eexists _, _. split; [reflexivity |]. split; [reflexivity |].
    split; [apply increasing_6; lra |].
    eapply Forall_impl; [exact Hbounds |]. intros v [Hv1 Hv2]. cbv beta.
    split; [lra |]. exists mx. split; [| lra].
    do 4 apply list_elem_of_further. apply list_elem_of_here.
Qed.

Lemma no_edge_equal (b : Q) (rest : list Q) :
  Forall (Qlt b) rest -> existsb (Qeq_bool b) rest = false.
Proof.
  induction 1 as [| c rest Hc _ IH]; simpl; [reflexivity |].
  rewrite IH, orb_false_r.
  apply not_true_iff_false. intros Heq. apply Qeq_bool_eq in Heq. lra.
Qed.

Lemma no_duplicate_edges (bins : list Q) :
  StronglySorted Qlt bins -> has_duplicate_edges bins = false.
Proof.
  induction 1 as [| b rest _ IH Hall]; simpl; [reflexivity |].
  rewrite IH, orb_false_r. apply no_edge_equal. exact Hall.
Qed.

Lemma searchsorted_left_pos (b0 : Q) (rest : list Q) (v : Q) :
  (b0 < v)%Q -> (1 <= searchsorted_left (b0 :: rest) v)%nat.
Proof.
  intros H. simpl. apply Qltb_lt in H. rewrite H. lia.
Qed.

Lemma searchsorted_left_lt_length (a : list Q) (v : Q) :
  (exists b, b ∈ a /\ (v <= b)%Q) ->
  (searchsorted_left a v < length a)%nat.
Proof.
  induction a as [| c a IH]; intros (b & Hb & Hvb).
  - apply elem_of_nil in Hb. contradiction.
  - simpl. destruct (Qltb c v) eqn:E; [| lia].
    apply Qltb_lt in E. apply elem_of_cons in Hb. destruct Hb as [-> | Hb].
    + lra.
    + assert (searchsorted_left a v < length a)%nat by (apply IH; eauto). lia.
Qed.

Lemma astype_int_all_some (c : list (option Z)) (labels : list Z) :
  Forall (fun o => exists v, o = Some v /\ v ∈ labels) c ->
  exists scores,
    astype_int c = Ok scores /\
    length scores = length c /\
    Forall (fun v => v ∈ labels) scores.
Proof.
  induction 1 as [| o c (v & -> & Hv) _ (scores & Heq & Hlen & Hall)]; simpl.
  - exists []. repeat split. constructor.
  - exists (v :: scores). rewrite Heq. simpl.
    repeat split; [lia | constructor; assumption].
Qed.

(** Binning a non-empty column into five bins with five distinct labels
    raises nothing and gives every row one of the labels. *)
Lemma pd_cut_scores (x : list Q) (labels : list Z) :
  x <> [] -> length labels = 5%nat -> NoDup labels ->
  exists scores,
    pd_cut x 5 labels ≫= astype_int = Ok scores /\
    length scores = length x /\
    Forall (fun v => v ∈ labels) scores.
Proof.
  intros Hx Hlen Hnodup.
  destruct (nbins_to_bins_5 x Hx) as (b0 & rest & Hbins & Hrest & Hsorted & Hin).
  unfold pd_cut. rewrite Hbins, result_bind_Ok.
  assert (Hl : (length labels =? length (b0 :: rest) - 1)%nat = true).
  { apply Nat.eqb_eq. simpl. lia. }
  unfold bins_to_cuts.
  rewrite (no_duplicate_edges _ Hsorted), (bool_decide_eq_true_2 _ Hnodup), Hl.
  cbn [andb negb].
  match goal with |- context [Ok (map ?f x)] => set (cats := map f x) end.
  destruct (astype_int_all_some cats labels) as (scores & Hs & Hlen' & Hall).
  - subst cats. apply Forall_fmap. eapply Forall_impl; [exact Hin |].
    intros v [Hlo Hhi]. unfold compose. cbv beta.
    pose proof (searchsorted_left_pos b0 rest v Hlo) as H1.
    assert (H2 : (searchsorted_left (b0 :: rest) v < length (b0 :: rest))%nat).
    { apply searchsorted_left_lt_length. destruct Hhi as (b & Hb & Hvb).
      exists b. split; [apply list_elem_of_further; exact Hb | exact Hvb]. }
    set (ids := searchsorted_left (b0 :: rest) v) in *.
    assert (E1 : (ids =? length (b0 :: rest))%nat = false) by (apply Nat.eqb_neq; lia).
    assert (E2 : (ids =? 0)%nat = false) by (apply Nat.eqb_neq; lia).
    rewrite E1, E2. cbn [orb].
    destruct (lookup_lt_is_Some_2 labels (ids - 1)%nat) as [l Hl'].
    { simpl in H2. lia. }
    exists l. split; [exact Hl' |]. eapply list_elem_of_lookup_2. exact Hl'.
  - exists scores. split; [exact Hs |]. split; [| exact Hall].
    rewrite Hlen'. subst cats. apply length_map.
Qed.

Lemma length_rank_first (x : list Q) : length (rank_first x) = length x.
Proof. unfold rank_first. apply length_imap. Qed.

(** ** Rule classifier *)

(** The cascade of [elif]s is the first-match evaluation of the rule table. *)
Lemma segment_customers_first_match (row : ScoredCustomer) :
  segment_customers row =
  first_match spec_rules (R_Score row) (F_Score row) (M_Score row).
Proof.
  unfold segment_customers, spec_rules, first_match.
  rewrite !Z.geb_leb. reflexivity.
Qed.

Lemma segment_customers_in_labels (row : ScoredCustomer) :
  In (segment_customers row) segment_labels.
Proof.
  unfold segment_customers, segment_labels.
  split_rules; simpl; tauto.
Qed.

Lemma segment_labels_NoDup : NoDup segment_labels.
Proof.
  apply (bool_decide_unpack _). vm_compute. exact I.
Qed.

(** Whenever the guard of the ninth rule holds, the guard of the eighth holds
    too, whatever the scores are. *)
Lemma rule9_shadowed (row : ScoredCustomer) :
  segment_customers row <> "Cannot Lose Them".
Proof.
  unfold segment_customers.
  split_rules; try discriminate.
  bool_to_Z. intuition lia.
Qed.

(** C1 (as the code behaves): the row with scores (1, 1, 5) passes the guard
    of the eighth rule, [M_Score >= 4 and R_Score <= 2], before the ninth is
    reached, and is labelled [At Risk]. *)
Theorem segment_customers_1_1_5 (row : ScoredCustomer) :
  R_Score row = 1 -> F_Score row = 1 -> M_Score row = 5 ->
  segment_customers row = "At Risk" /\
  segment_customers row <> "Cannot Lose Them".
Proof.
  intros Hr Hf Hm. unfold segment_customers. rewrite Hr, Hf, Hm.
  simpl. split; [reflexivity | discriminate].
Qed.

Lemma segment_customers_1_1_5_witness :
  segment_customers (score_row 1 1 5) = "At Risk" /\
  segment_customers (score_row 1 1 5) <> "Cannot Lose Them".
Proof. apply (segment_customers_1_1_5 (score_row 1 1 5)); reflexivity. Defined.

(** C2: for every triple of scores in 1..5 the classifier never returns
    [Cannot Lose Them]; the ninth rule is shadowed by the eighth. *)
Theorem never_cannot_lose_them (row : ScoredCustomer) :
  in_score_range row ->
  segment_customers row <> "Cannot Lose Them" /\
  (((M_Score row >=? 4) && (R_Score row =? 1)) = true ->
   ((M_Score row >=? 4) && (R_Score row <=? 2)) = true).
Proof.
  intros _. split; [apply rule9_shadowed |].
  intros H. bool_to_Z.
  apply andb_true_iff. split; [apply Z.geb_le; lia | apply Z.leb_le; lia].
Qed.

Lemma never_cannot_lose_them_witness :
  in_score_range (score_row 1 3 4) /\
  segment_customers (score_row 1 3 4) <> "Cannot Lose Them".
Proof.
  split; [unfold in_score_range, is_score; simpl; lia |].
  apply (never_cannot_lose_them (score_row 1 3 4)).
  unfold in_score_range, is_score; simpl; lia.
Defined.

(** C3: on scores in 1..5 the classifier is a total function into the eleven
    labels: the label exists and is unique, it is the label of the first
    matching rule of the table of section 4.3, and (5, 5, 5) is [Champions]. *)
Theorem segment_customers_total (row : ScoredCustomer) :
  in_score_range row ->
  (exists! label : string,
      In label segment_labels /\ segment_customers row = label) /\
  length segment_labels = 11%nat /\ NoDup segment_labels /\
  segment_customers row =
    first_match spec_rules (R_Score row) (F_Score row) (M_Score row) /\
  (R_Score row = 5 -> F_Score row = 5 -> M_Score row = 5 ->
   segment_customers row = "Champions").
Proof.
  intros _. repeat split.
  - exists (segment_customers row). split.
    + split; [apply segment_customers_in_labels | reflexivity].
    + intros label [_ H]. exact H.
  - apply segment_labels_NoDup.
  - apply segment_customers_first_match.
  - intros Hr Hf Hm. unfold segment_customers. rewrite Hr, Hf, Hm. reflexivity.
Qed.

Lemma segment_customers_total_witness :
  in_score_range (score_row 5 5 5) /\
  segment_customers (score_row 5 5 5) = "Champions".
Proof.
  split; [unfold in_score_range, is_score; simpl; lia |].
  apply (segment_customers_total (score_row 5 5 5));
    [unfold in_score_range, is_score; simpl; lia | reflexivity ..].
Defined.

(** ** Marketing recommendations *)

Lemma recommendations_lookup (label : string) :
  is_Some (recommendations !! label) <-> In label recommended_labels.
Proof.
  unfold recommendations.
  rewrite <- not_eq_None_Some, <- not_elem_of_list_to_map.
  rewrite <- list_elem_of_In.
  change (fmap fst _) with recommended_labels.
  split.
  - intros H. destruct (decide (label ∈ recommended_labels)) as [Hin | Hout];
      [exact Hin | exfalso; apply H; exact Hout].
  - intros H Hn. apply Hn. exact H.
Qed.

(** C10: the mapping has eight entries, all of them among the eleven labels
    of the classifier; [Promising], [Need Attention] and [About to Sleep] are
    each produced for some scores in 1..5 and have no entry. *)
Theorem recommendations_miss_three_labels
    (rfm_data : list SegmentedCustomer) :
  exists recs : gmap string Recommendation,
    generate_marketing_recommendations (Some rfm_data) = Some recs /\
    size recs = 8%nat /\
    (forall label, is_Some (recs !! label) -> In label segment_labels) /\
    (forall label, In label segment_labels ->
       (recs !! label = None <->
        In label ["Promising"; "Need Attention"; "About to Sleep"])) /\
    (forall label, In label ["Promising"; "Need Attention"; "About to Sleep"] ->
       recs !! label = None /\
       exists row, in_score_range row /\ segment_customers row = label).
Proof.
  exists recommendations. split; [reflexivity |].
  split; [vm_compute; reflexivity |].
  assert (Hnone : forall label,
    In label ["Promising"; "Need Attention"; "About to Sleep"] ->
    recommendations !! label = None).
  { intros label Hin. apply eq_None_not_Some. rewrite recommendations_lookup.
    unfold recommended_labels. simpl in *. intros H.
    repeat destruct Hin as [<- | Hin]; try contradiction;
      repeat destruct H as [H | H]; try discriminate H; contradiction. }
  split; [| split].
  - intros label H. apply recommendations_lookup in H.
    unfold recommended_labels, segment_labels in *. simpl in *. tauto.
  - intros label Hin. split; [| apply Hnone].
    intros H. apply eq_None_not_Some in H. rewrite recommendations_lookup in H.
    unfold recommended_labels, segment_labels in *. simpl in *. tauto.
  - intros label Hin. split; [apply Hnone; exact Hin |].
    simpl in Hin. destruct Hin as [<- | [<- | [<- | []]]].
    + exists (score_row 3 2 2). split; [unfold in_score_range, is_score; simpl; lia | reflexivity].
    + exists (score_row 3 3 1). split; [unfold in_score_range, is_score; simpl; lia | reflexivity].
    + exists (score_row 2 2 2). split; [unfold in_score_range, is_score; simpl; lia | reflexivity].
Qed.

(** ** Metric calculator *)


Lemma rfm_metrics_ids (analysis_date : option Z) (customer_data : list Transaction) :
  map rfm_customer_id (rfm_metrics analysis_date customer_data) =
  groupby_keys Z.compare (map customer_id customer_data).
Proof.
  unfold rfm_metrics. rewrite map_map. simpl. apply map_id.
Qed.

Lemma rfm_metrics_nonempty (analysis_date : option Z) (customer_data : list Transaction) :
  customer_data <> [] -> rfm_metrics analysis_date customer_data <> [].
Proof.
  intros Hne Hnil. destruct customer_data as [| t rest]; [congruence |].
  assert (Hin : customer_id t ∈ groupby_keys Z.compare (map customer_id (t :: rest))).
  { apply elem_of_customer_keys. simpl. apply list_elem_of_here. }
  rewrite <- rfm_metrics_ids with (analysis_date := analysis_date) in Hin.
  rewrite Hnil in Hin. simpl in Hin. apply elem_of_nil in Hin. exact Hin.
Qed.

(** The aggregation returns the metric table or raises on a difference of
    timestamps that does not fit a [Timedelta]. *)
Lemma timedelta_overflows_false (delta : Z) :
  timedelta_overflows delta = false <->
  - Timedelta_max <= delta <= Timedelta_max.
Proof.
  unfold timedelta_overflows. rewrite orb_false_iff, !Z.ltb_ge. lia.
Qed.


Lemma aggregate_rfm_outcome (analysis_date : option Z)
    (customer_data : list Transaction) :
  aggregate_rfm analysis_date customer_data
    = Ok (rfm_metrics analysis_date customer_data) \/
  aggregate_rfm analysis_date customer_data = Raise OutOfBounds.
Proof.
  unfold aggregate_rfm. destruct (existsb _ _); [right | left]; reflexivity.
Qed.

(** The reference date that the aggregation uses. *)
Lemma analysis_date_unique (analysis_date : option Z)
    (customer_data : list Transaction) (a : Z) :
  match analysis_date with
  | None => series_max (map transaction_date customer_data)
  | Some d => Some d
  end = Some a ->
  is_analysis_date analysis_date customer_data a.
Proof.
  destruct analysis_date as [d |]; simpl.
  - intros [= ->]. reflexivity.
  - intros Hmax.
    destruct (map transaction_date customer_data) as [| d0 rest] eqn:E;
      [discriminate Hmax |].
    destruct (series_max_spec (d0 :: rest)) as (m & Hm & Hin & Hle);
      [discriminate |].
    rewrite Hmax in Hm. injection Hm as <-. split; assumption.
Qed.

Lemma series_max_unique (x : list Z) (m : Z) :
  m ∈ x -> Forall (fun d => d <= m) x -> series_max x = Some m.
Proof.
  intros Hin Hle. destruct (series_max_spec x) as (m' & Hm' & Hin' & Hle').
  { intros ->. apply elem_of_nil in Hin. exact Hin. }
  rewrite Hm'. f_equal. rewrite Forall_forall in Hle, Hle'.
  pose proof (Hle _ Hin'). pose proof (Hle' _ Hin). lia.
Qed.

Lemma analysis_date_now (analysis_date : option Z)
    (customer_data : list Transaction) (now : Z) :
  is_analysis_date analysis_date customer_data now ->
  match analysis_date with
  | None => series_max (map transaction_date customer_data)
  | Some d => Some d
  end = Some now.
Proof.
  destruct analysis_date as [d |]; simpl.
  - intros ->. reflexivity.
  - intros [Hin Hle]. apply series_max_unique; assumption.
Qed.

(** The aggregation raises as soon as the latest timestamp of one customer
    is out of the range of a [Timedelta] from the analysis date. *)
Lemma aggregate_rfm_raises (analysis_date : option Z)
    (customer_data : list Transaction) (now c latest : Z) :
  is_analysis_date analysis_date customer_data now ->
  c ∈ map customer_id customer_data ->
  latest ∈ map transaction_date (customer_group customer_data c) ->
  Forall (fun d => d <= latest)
         (map transaction_date (customer_group customer_data c)) ->
  ~ (- Timedelta_max <= now - latest <= Timedelta_max) ->
  aggregate_rfm analysis_date customer_data = Raise OutOfBounds.
Proof.
  intros Hnow Hc Hin Hle Hout. unfold aggregate_rfm.
  rewrite (analysis_date_now _ _ _ Hnow).
  destruct (existsb _ _) eqn:E; [reflexivity | exfalso].
  apply not_true_iff_false in E. apply E. apply existsb_exists.
  exists c. split.
  - apply list_elem_of_In, elem_of_customer_keys. exact Hc.
  - rewrite (series_max_unique _ _ Hin Hle).
    destruct (timedelta_overflows (now - latest)) eqn:Ho; [reflexivity |].
    apply timedelta_overflows_false in Ho. contradiction.
Qed.

(** It returns the table when the latest timestamp of every customer is in
    that range. *)
Lemma aggregate_rfm_ok_latest (analysis_date : option Z)
    (customer_data : list Transaction) :
  (forall now c latest,
     is_analysis_date analysis_date customer_data now ->
     c ∈ map customer_id customer_data ->
     latest ∈ map transaction_date (customer_group customer_data c) ->
     Forall (fun d => d <= latest)
            (map transaction_date (customer_group customer_data c)) ->
     - Timedelta_max <= now - latest <= Timedelta_max) ->
  aggregate_rfm analysis_date customer_data
  = Ok (rfm_metrics analysis_date customer_data).
Proof.
  intros Hfit. unfold aggregate_rfm.
  destruct (existsb _ _) eqn:E; [exfalso | reflexivity].
  apply existsb_exists in E. destruct E as (c & Hkey & Hc).
  apply list_elem_of_In in Hkey. rewrite elem_of_customer_keys in Hkey.
  destruct (match analysis_date with
            | None => series_max (map transaction_date customer_data)
            | Some d => Some d
            end) as [a |] eqn:Ha; [| discriminate Hc].
  apply analysis_date_unique in Ha.
  destruct (series_max (map transaction_date (customer_group customer_data c)))
    as [m |] eqn:Hm; [| discriminate Hc].
  destruct (map transaction_date (customer_group customer_data c))
    as [| d0 rest] eqn:Hg; [discriminate Hm |].
  destruct (series_max_spec (d0 :: rest)) as (m' & Hm' & Hin & Hle);
    [discriminate |].
  rewrite Hm in Hm'. injection Hm' as <-.
  rewrite <- Hg in Hin, Hle.
  pose proof (Hfit a c m Ha Hkey Hin Hle) as Hb.
  apply timedelta_overflows_false in Hb. rewrite Hb in Hc. discriminate Hc.
Qed.





(** ** Score binner *)

Lemma labels_are_scores (labels : list Z) (scores : list Z) :
  labels = [5; 4; 3; 2; 1] \/ labels = [1; 2; 3; 4; 5] ->
  Forall (fun v => v ∈ labels) scores -> Forall is_score scores.
Proof.
  intros Hl Hall. eapply Forall_impl; [exact Hall |].
  intros v Hv. unfold is_score.
  destruct Hl as [-> | ->];
    rewrite !elem_of_cons, elem_of_nil in Hv; lia.
Qed.

Lemma NoDup_score_labels :
  NoDup [5; 4; 3; 2; 1] /\ NoDup [1; 2; 3; 4; 5].
Proof. split; apply (bool_decide_unpack _); vm_compute; exact I. Qed.

(** On a non-empty table the three [pd.cut] calls and the conversions to
    [int] raise nothing, whatever the number of rows. *)
Lemma score_columns_ok (rfm_data : list CustomerMetrics) :
  rfm_data <> [] ->
  exists r f m,
    score_columns rfm_data = Ok (r, f, m) /\
    length r = length rfm_data /\ length f = length rfm_data /\
    length m = length rfm_data /\
    Forall is_score r /\ Forall is_score f /\ Forall is_score m.
Proof.
  intros Hne. destruct NoDup_score_labels as [Hdesc Hasc].
  assert (Hcol : forall (g : CustomerMetrics -> Q), map g rfm_data <> []).
  { intros g. destruct rfm_data; [congruence | discriminate]. }
  assert (Hrank : forall (g : CustomerMetrics -> Q),
             rank_first (map g rfm_data) <> []).
  { intros g Hnil. apply (f_equal length) in Hnil.
    rewrite length_rank_first, length_map in Hnil.
    destruct rfm_data; [congruence | discriminate]. }
  destruct (pd_cut_scores _ [5; 4; 3; 2; 1]
              (Hcol (fun c => inject_Z (Recency c))) eq_refl Hdesc)
    as (r & Hr & Hlr & Hsr).
  destruct (pd_cut_scores _ [1; 2; 3; 4; 5]
              (Hrank (fun c => inject_Z (Frequency c))) eq_refl Hasc)
    as (f & Hf & Hlf & Hsf).
  destruct (pd_cut_scores _ [1; 2; 3; 4; 5] (Hrank Monetary) eq_refl Hasc)
    as (m & Hm & Hlm & Hsm).
  exists r, f, m. unfold score_columns.
  rewrite Hr, result_bind_Ok, Hf, result_bind_Ok, Hm, result_bind_Ok.
  rewrite length_rank_first, length_map in Hlf, Hlm. rewrite length_map in Hlr.
  repeat split; try assumption.
  - eapply labels_are_scores; [left; reflexivity | exact Hsr].
  - eapply labels_are_scores; [right; reflexivity | exact Hsf].
  - eapply labels_are_scores; [right; reflexivity | exact Hsm].
Qed.

Lemma score_columns_empty : score_columns [] = Raise ValueError.
Proof. reflexivity. Qed.

(** C4 (as the code behaves): with fewer than five rows the score binner
    raises nothing as long as there is a row, and gives every row scores
    in 1..5; only the empty table fails, with [ValueError]. *)
Theorem score_columns_small_population (rfm_data : list CustomerMetrics) :
  (length rfm_data < 5)%nat ->
  (rfm_data = [] -> score_columns rfm_data = Raise ValueError) /\
  (rfm_data <> [] ->
   exists r f m,
     score_columns rfm_data = Ok (r, f, m) /\
     length r = length rfm_data /\ length f = length rfm_data /\
     length m = length rfm_data /\
     Forall is_score r /\ Forall is_score f /\ Forall is_score m).
Proof.
  intros _. split.
  - intros ->. apply score_columns_empty.
  - apply score_columns_ok.
Qed.

Lemma score_columns_small_population_witness :
  exists r f m,
    score_columns (rfm_metrics None four_customers) = Ok (r, f, m) /\
    length r = 4%nat /\ length f = 4%nat /\ length m = 4%nat /\
    Forall is_score r /\ Forall is_score f /\ Forall is_score m.
Proof.
  refine (proj2 (score_columns_small_population
                   (rfm_metrics None four_customers) _) _).
  - vm_compute. lia.
  - discriminate.
Defined.

(** C4 as stated fails: a population of exactly four customers is scored. *)
Lemma four_customers_scored_counterexample :
  length (rfm_metrics None four_customers) = 4%nat /\
  score_columns (rfm_metrics None four_customers) =
    Ok ([1; 2; 4; 5], [1; 2; 4; 5], [1; 2; 4; 5]) /\
  score_columns (rfm_metrics None four_customers) <>
    Raise InsufficientDataError.
Proof.
  split; [reflexivity |]. split; [vm_compute; reflexivity |].
  vm_compute. discriminate.
Qed.

(** ** [calculate_rfm] as a whole *)

Lemma calculate_rfm_Ok_scored (analysis_date : option Z)
    (customer_data : list Transaction) (rfm_data : list SegmentedCustomer) :
  calculate_rfm analysis_date customer_data = Ok rfm_data ->
  aggregate_rfm analysis_date customer_data
    = Ok (rfm_metrics analysis_date customer_data) /\
  ('(r, f, m) ← score_columns (rfm_metrics analysis_date customer_data);
   Ok (map add_segment
         (map add_scores (zip (rfm_metrics analysis_date customer_data)
                              (zip r (zip f m))))))
  = Ok rfm_data.
Proof.
  unfold calculate_rfm.
  destruct (aggregate_rfm_outcome analysis_date customer_data) as [H | H];
    rewrite H; [| discriminate].
  rewrite result_bind_Ok. intros Hs. split; [reflexivity | exact Hs].
Qed.

Lemma calculate_rfm_ok (analysis_date : option Z)
    (customer_data : list Transaction) :
  customer_data <> [] ->
  aggregate_rfm analysis_date customer_data
    = Ok (rfm_metrics analysis_date customer_data) ->
  exists rfm_data,
    calculate_rfm analysis_date customer_data = Ok rfm_data /\
    map (fun c => metrics (scored c)) rfm_data =
      rfm_metrics analysis_date customer_data /\
    Forall (fun c => in_score_range (scored c) /\
                     Segment c = segment_customers (scored c)) rfm_data.
Proof.
  intros Hne Hagg.
  pose proof (rfm_metrics_nonempty analysis_date _ Hne) as Hrows.
  destruct (score_columns_ok _ Hrows)
    as (r & f & m & Hs & Hlr & Hlf & Hlm & Hr & Hf & Hm).
  unfold calculate_rfm. rewrite Hagg, result_bind_Ok, Hs, result_bind_Ok.
  eexists. split; [reflexivity |]. split.
  - rewrite !map_map.
    rewrite <- (fst_zip (rfm_metrics analysis_date customer_data)
                        (zip r (zip f m))) at 2.
    + apply map_ext. intros [c [r0 [f0 m0]]]. reflexivity.
    + rewrite !length_zip. lia.
  - rewrite !Forall_fmap. apply Forall_forall.
    intros [c [r0 [f0 m0]]] Hin. unfold compose. simpl.
    split; [| reflexivity].
    apply elem_of_zip_r in Hin. pose proof (elem_of_zip_l _ _ _ _ Hin) as Hr0.
    apply elem_of_zip_r in Hin. pose proof (elem_of_zip_l _ _ _ _ Hin) as Hf0.
    apply elem_of_zip_r in Hin.
    rewrite Forall_forall in Hr, Hf, Hm.
    unfold in_score_range, is_score. simpl.
    split; [apply Hr, Hr0 | split; [apply Hf, Hf0 | apply Hm, Hin]].
Qed.

(** C6 (as the code behaves): on the empty transaction set the metric
    calculator raises nothing and yields the empty table; the call of
    [calculate_rfm] then fails in the first [pd.cut], with [ValueError]. *)
Theorem calculate_rfm_empty (analysis_date : option Z) :
  rfm_metrics analysis_date [] = [] /\
  calculate_rfm analysis_date [] = Raise ValueError /\
  calculate_rfm analysis_date [] <> Raise InvalidInputError.
Proof.
  split; [destruct analysis_date; reflexivity |].
  split; [destruct analysis_date; reflexivity |].
  destruct analysis_date; discriminate.
Qed.

(** C6 as stated fails: the error on the empty set is not
    [InvalidInputError]. *)
Lemma empty_transactions_counterexample :
  rfm_metrics None [] = [] /\
  calculate_rfm None [] <> Raise InvalidInputError.
Proof. split; [reflexivity | discriminate]. Qed.

(** ** Cluster selector *)

Lemma py_range_empty (start stop : Z) : stop <= start -> py_range start stop = [].
Proof.
  intros H. unfold py_range.
  replace (Z.to_nat (stop - start)) with 0%nat by lia. reflexivity.
Qed.

Lemma elem_of_py_range (start stop k : Z) :
  k ∈ py_range start stop <-> start <= k < stop.
Proof.
  unfold py_range. rewrite list_elem_of_fmap. split.
  - intros (i & -> & Hi). apply elem_of_seq in Hi. lia.
  - intros H. exists (Z.to_nat (k - start)). split; [lia |].
    apply elem_of_seq. lia.
Qed.

(** [argmax_from] keeps the first largest value seen so far. *)
Lemma argmax_from_spec (rest pre : list Q) (best : Q) (best_i : nat) :
  pre !! best_i = Some best ->
  Forall (fun v => v <= best)%Q pre ->
  exists top,
    (pre ++ rest) !! argmax_from best best_i (length pre) rest = Some top /\
    Forall (fun v => v <= top)%Q (pre ++ rest).
Proof.
  revert pre best best_i.
  induction rest as [| v rest IH]; intros pre best best_i Hbest Hall; simpl.
  - exists best. rewrite app_nil_r. split; assumption.
  - replace (pre ++ v :: rest) with ((pre ++ [v]) ++ rest)
      by (rewrite <- app_assoc; reflexivity).
    replace (S (length pre)) with (length (pre ++ [v]))
      by (rewrite length_app; simpl; lia).
    destruct (Qltb best v) eqn:E.
    + apply Qltb_lt in E. apply IH.
      * rewrite lookup_app_r by lia.
        replace (length pre - length pre)%nat with 0%nat by lia. reflexivity.
      * apply Forall_app. split.
        -- eapply Forall_impl; [exact Hall |]. intros w Hw. cbv beta in *. lra.
        -- constructor; [apply Qle_refl | constructor].
    + apply Qltb_ge in E. apply IH.
      * apply lookup_app_l_Some. exact Hbest.
      * apply Forall_app. split; [exact Hall |].
        constructor; [exact E | constructor].
Qed.

Lemma np_argmax_spec (a : list Q) :
  a <> [] ->
  exists i top,
    np_argmax a = Ok i /\ a !! i = Some top /\ Forall (fun v => v <= top)%Q a.
Proof.
  destruct a as [| v rest]; [congruence | intros _].
  destruct (argmax_from_spec rest [v] v 0%nat) as (top & Htop & Hall).
  - reflexivity.
  - constructor; [apply Qle_refl | constructor].
  - exists (argmax_from v 0 1 rest), top. split; [reflexivity |].
    split; assumption.
Qed.

Section ClusterSelectorFacts.
Variable KMeans_fit_predict : Z -> list (list Q) -> result (list Z * Q).
Variable silhouette_score : list (list Q) -> list Z -> result Q.

(** The body of the loop returns the inertia of the fitted clustering of
    the candidate and the silhouette score of its assignment; it raises what
    the clustering raises, or else what the scoring raises. *)
Lemma evaluate_candidate_Ok (data : list (list Q)) (k : Z) (inertia s : Q) :
  evaluate_candidate KMeans_fit_predict silhouette_score data k
    = Ok (inertia, s) <->
  exists cluster_labels,
    KMeans_fit_predict k data = Ok (cluster_labels, inertia) /\
    silhouette_score data cluster_labels = Ok s.
Proof.
  unfold evaluate_candidate. split.
  - destruct (KMeans_fit_predict k data) as [[labels inertia'] | e] eqn:Hk;
      [| discriminate].
    simpl.
    destruct (silhouette_score data labels) as [s' | e] eqn:Hs;
      [| discriminate].
    simpl. intros [= <- <-]. exists labels. auto.
  - intros (labels & Hk & Hs). rewrite Hk. simpl. rewrite Hs. reflexivity.
Qed.

Lemma evaluate_candidate_Raise (data : list (list Q)) (k : Z) (e : exn) :
  evaluate_candidate KMeans_fit_predict silhouette_score data k = Raise e <->
  KMeans_fit_predict k data = Raise e \/
  exists cluster_labels inertia,
    KMeans_fit_predict k data = Ok (cluster_labels, inertia) /\
    silhouette_score data cluster_labels = Raise e.
Proof.
  unfold evaluate_candidate. split.
  - destruct (KMeans_fit_predict k data) as [[labels inertia'] | e'] eqn:Hk;
      simpl.
    + destruct (silhouette_score data labels) as [s' | e'] eqn:Hs; simpl;
        [discriminate |].
      intros [= ->]. right. exists labels, inertia'. auto.
    + intros [= ->]. left. reflexivity.
  - intros [Hk | (labels & inertia & Hk & Hs)]; rewrite Hk; simpl;
      [| rewrite Hs]; reflexivity.
Qed.

Lemma candidate_silhouette_calls (data : list (list Q)) (k : Z) (s : Q) :
  candidate_silhouette KMeans_fit_predict silhouette_score data k = Ok s <->
  exists cluster_labels inertia,
    KMeans_fit_predict k data = Ok (cluster_labels, inertia) /\
    silhouette_score data cluster_labels = Ok s.
Proof.
  unfold candidate_silhouette. split.
  - destruct (evaluate_candidate _ _ data k) as [[inertia s'] | e] eqn:E;
      rewrite ?result_bind_Ok, ?result_bind_Raise; [| discriminate].
    intros [= ->]. apply evaluate_candidate_Ok in E.
    destruct E as (labels & Hk & Hs). exists labels, inertia. auto.
  - intros (labels & inertia & Hk & Hs).
    assert (E : evaluate_candidate KMeans_fit_predict silhouette_score data k
                = Ok (inertia, s))
      by (apply evaluate_candidate_Ok; exists labels; auto).
    rewrite E. reflexivity.
Qed.

Lemma candidate_silhouette_Ok (data : list (list Q)) (k : Z) (s : Q) :
  candidate_silhouette KMeans_fit_predict silhouette_score data k = Ok s ->
  exists inertia,
    evaluate_candidate KMeans_fit_predict silhouette_score data k
    = Ok (inertia, s).
Proof.
  unfold candidate_silhouette.
  destruct (evaluate_candidate _ _ data k) as [[inertia s'] | e]; simpl.
  - intros [= ->]. exists inertia. reflexivity.
  - discriminate.
Qed.

(** When every candidate can be clustered and scored, the loop visits the
    candidates in order and records the score of each. *)
Lemma evaluate_candidates_ok (data : list (list Q)) (k_range : list Z) :
  Forall (fun k =>
            exists s,
              candidate_silhouette KMeans_fit_predict silhouette_score data k
              = Ok s) k_range ->
  exists inertias silhouette_scores,
    evaluate_candidates KMeans_fit_predict silhouette_score data k_range
    = Ok (inertias, silhouette_scores) /\
    Forall2 (fun k s =>
               candidate_silhouette KMeans_fit_predict silhouette_score data k
               = Ok s)
            k_range silhouette_scores.
Proof.
  induction 1 as [| k rest (s & Hs) _ (inertias & scores & Heq & Hall)].
  - exists [], []. split; [reflexivity | constructor].
  - destruct (candidate_silhouette_Ok _ _ _ Hs) as (inertia & Hk).
    exists (inertia :: inertias), (s :: scores). split.
    + simpl. rewrite Hk, result_bind_Ok.
      rewrite Heq, result_bind_Ok. reflexivity.
    + constructor; assumption.
Qed.

(** C5 (as the code behaves): with fewer than three rows the range of
    candidates is empty, no clustering is run, and [np.argmax] of the empty
    score list raises [ValueError]. *)
Theorem find_optimal_clusters_small_population (data : list (list Q)) :
  (length data < 3)%nat ->
  py_range 2 (Z.min (10 + 1) (Z.of_nat (length data))) = [] /\
  _find_optimal_clusters KMeans_fit_predict silhouette_score data 10
  = Raise ValueError /\
  _find_optimal_clusters KMeans_fit_predict silhouette_score data 10
  <> Raise InsufficientDataError.
Proof.
  intros Hn.
  assert (Hr : py_range 2 (Z.min (10 + 1) (Z.of_nat (length data))) = [])
    by (apply py_range_empty; lia).
  assert (Hf : _find_optimal_clusters KMeans_fit_predict silhouette_score
                 data 10 = Raise ValueError).
  { unfold _find_optimal_clusters. rewrite Hr. reflexivity. }
  split; [exact Hr |]. split; [exact Hf |]. rewrite Hf. discriminate.
Qed.

(** The selection in terms of the entries of [silhouette_scores]. *)
Lemma find_optimal_clusters_argmax_scores (data : list (list Q)) :
  (3 <= length data)%nat ->
  (forall k, 2 <= k <= max_candidate data ->
     exists s,
       candidate_silhouette KMeans_fit_predict silhouette_score data k
       = Ok s) ->
  exists inertias silhouette_scores optimal_k best,
    evaluate_candidates KMeans_fit_predict silhouette_score data
      (py_range 2 (max_candidate data + 1))
    = Ok (inertias, silhouette_scores) /\
    Forall2 (fun k s =>
               candidate_silhouette KMeans_fit_predict silhouette_score data k
               = Ok s)
            (py_range 2 (max_candidate data + 1)) silhouette_scores /\
    (forall k, k ∈ py_range 2 (max_candidate data + 1) <->
               2 <= k <= max_candidate data) /\
    _find_optimal_clusters KMeans_fit_predict silhouette_score data 10
    = Ok optimal_k /\
    2 <= optimal_k <= max_candidate data /\
    candidate_silhouette KMeans_fit_predict silhouette_score data optimal_k
    = Ok best /\
    (forall k s,
       2 <= k <= max_candidate data ->
       candidate_silhouette KMeans_fit_predict silhouette_score data k
       = Ok s ->
       (s <= best)%Q).
Proof.
  intros Hn Hall. set (k_max := max_candidate data) in *.
  assert (Hk_max : k_max = Z.min 10 (Z.of_nat (length data) - 1))
    by reflexivity.
  assert (Hrange : forall k, k ∈ py_range 2 (k_max + 1) <-> 2 <= k <= k_max).
  { intros k. rewrite elem_of_py_range. lia. }
  destruct (evaluate_candidates_ok data (py_range 2 (k_max + 1)))
    as (inertias & scores & Heval & Hscores).
  { apply Forall_forall. intros k Hk. apply Hall, Hrange, Hk. }
  assert (Hne : scores <> []).
  { intros ->. apply Forall2_nil_inv_r in Hscores.
    assert (H2 : 2 ∈ py_range 2 (k_max + 1)) by (apply Hrange; lia).
    rewrite Hscores in H2. apply elem_of_nil in H2. exact H2. }
  destruct (np_argmax_spec scores Hne) as (i & best & Hi & Hbest & Hle).
  destruct (Forall2_lookup_r _ _ _ _ _ Hscores Hbest)
    as (optimal_k & Hk & Hks).
  exists inertias, scores, optimal_k, best.
  assert (Heq : py_range 2 (Z.min (10 + 1) (Z.of_nat (length data)))
                = py_range 2 (k_max + 1)).
  { f_equal. lia. }
  split; [exact Heval |]. split; [exact Hscores |]. split; [exact Hrange |].
  split.
  { unfold _find_optimal_clusters. rewrite Heq.
    rewrite Heval, result_bind_Ok.
    rewrite Hi, result_bind_Ok, Hk. reflexivity. }
  split; [apply Hrange; eapply list_elem_of_lookup_2; exact Hk |].
  split; [exact Hks |].
  intros k s Hk_range Hs.
  apply Hrange in Hk_range. apply list_elem_of_lookup_1 in Hk_range.
  destruct Hk_range as (j & Hj).
  destruct (Forall2_lookup_l _ _ _ _ _ Hscores Hj) as (s' & Hs' & Hks').
  rewrite Hs in Hks'. injection Hks' as ->.
  rewrite Forall_forall in Hle. apply Hle.
  eapply list_elem_of_lookup_2. exact Hs'.
Qed.

(** C8: with at least three rows, and [KMeans] and [silhouette_score]
    raising nothing on the candidates 2..min(10, n - 1), the loop clusters
    each candidate of that range once, in order, records the silhouette score
    of the assignment that the clustering of the candidate returned, and the
    result is a candidate of the range whose assignment has a silhouette
    score at least the score of the assignment of every candidate. *)
Theorem find_optimal_clusters_argmax (data : list (list Q)) :
  (3 <= length data)%nat ->
  (forall k, 2 <= k <= max_candidate data ->
     exists cluster_labels inertia s,
       KMeans_fit_predict k data = Ok (cluster_labels, inertia) /\
       silhouette_score data cluster_labels = Ok s) ->
  exists inertias silhouette_scores optimal_k cluster_labels inertia best,
    evaluate_candidates KMeans_fit_predict silhouette_score data
      (py_range 2 (max_candidate data + 1))
    = Ok (inertias, silhouette_scores) /\
    Forall2 (fun k s =>
               exists labels_k inertia_k,
                 KMeans_fit_predict k data = Ok (labels_k, inertia_k) /\
                 silhouette_score data labels_k = Ok s)
            (py_range 2 (max_candidate data + 1)) silhouette_scores /\
    (forall k, k ∈ py_range 2 (max_candidate data + 1) <->
               2 <= k <= max_candidate data) /\
    _find_optimal_clusters KMeans_fit_predict silhouette_score data 10
    = Ok optimal_k /\
    2 <= optimal_k <= max_candidate data /\
    KMeans_fit_predict optimal_k data = Ok (cluster_labels, inertia) /\
    silhouette_score data cluster_labels = Ok best /\
    (forall k labels_k inertia_k s,
       2 <= k <= max_candidate data ->
       KMeans_fit_predict k data = Ok (labels_k, inertia_k) ->
       silhouette_score data labels_k = Ok s ->
       (s <= best)%Q).
Proof.
  intros Hn Hall.
  destruct (find_optimal_clusters_argmax_scores data Hn)
    as (inertias & scores & optimal_k & best
        & Heval & Hscores & Hrange & Hcall & Hin & Hbest & Hmax).
  { intros k Hk. destruct (Hall k Hk) as (labels & inertia & s & Hl & Hs).
    exists s. apply candidate_silhouette_calls. exists labels, inertia. auto. }
  apply candidate_silhouette_calls in Hbest.
  destruct Hbest as (labels & inertia & Hl & Hs).
  exists inertias, scores, optimal_k, labels, inertia, best.
  split; [exact Heval |].
  split.
  { eapply Forall2_impl; [exact Hscores |].
    intros k s Hk. apply candidate_silhouette_calls. exact Hk. }
  split; [exact Hrange |]. split; [exact Hcall |]. split; [exact Hin |].
  split; [exact Hl |]. split; [exact Hs |].
  intros k labels_k inertia_k s Hk Hlk Hsk.
  apply (Hmax k s Hk). apply candidate_silhouette_calls.
  exists labels_k, inertia_k. auto.
Qed.
End ClusterSelectorFacts.

Lemma find_optimal_clusters_small_population_witness :
  _find_optimal_clusters round_robin_kmeans largest_label_score two_points 10
  = Raise ValueError.
Proof.
  refine (proj1 (proj2 (find_optimal_clusters_small_population
                          round_robin_kmeans largest_label_score two_points _))).
  simpl. lia.
Defined.

(** C5 as stated fails: on two rows the error is not
    [InsufficientDataError]. *)
Lemma small_population_error_counterexample :
  ~ (forall KMeans_fit_predict silhouette_score (data : list (list Q)),
       (length data < 3)%nat ->
       _find_optimal_clusters KMeans_fit_predict silhouette_score data 10
       = Raise InsufficientDataError).
Proof.
  intros H.
  specialize (H round_robin_kmeans largest_label_score two_points).
  assert (Hn : (length two_points < 3)%nat) by (simpl; lia).
  specialize (H Hn). vm_compute in H. discriminate H.
Qed.

Lemma find_optimal_clusters_argmax_witness :
  exists optimal_k cluster_labels inertia best,
    _find_optimal_clusters round_robin_kmeans three_clusters_score
      five_points 10 = Ok optimal_k /\
    2 <= optimal_k <= 4 /\
    round_robin_kmeans optimal_k five_points = Ok (cluster_labels, inertia) /\
    three_clusters_score five_points cluster_labels = Ok best /\
    (1 <= best)%Q.
Proof.
  destruct (find_optimal_clusters_argmax
              round_robin_kmeans three_clusters_score five_points)
    as (_ & _ & optimal_k & cluster_labels & inertia & best
        & _ & _ & _ & Hk & Hrange & Hl & Hs & Hmax).
  - simpl. lia.
  - intros k _. eexists _, _, _. split; reflexivity.
  - exists optimal_k, cluster_labels, inertia, best.
    split; [exact Hk |]. split; [exact Hrange |].
    split; [exact Hl |]. split; [exact Hs |].
    apply (Hmax 3 [0; 1; 2; 0; 1] 0%Q 1%Q).
    + vm_compute. split; discriminate.
    + reflexivity.
    + reflexivity.
Defined.

(** ** Segment aggregator *)

Section SortValues.
Context {A : Type} (key : A -> Q).

Lemma insert_desc_Permutation (a : A) (l : list A) :
  insert_desc key a l ≡ₚ a :: l.
Proof.
  induction l as [| b l IH]; simpl; [reflexivity |].
  destruct (Qle_bool (key b) (key a)); [reflexivity |].
  rewrite IH. apply Permutation_swap.
Qed.


Lemma sort_values_desc_Permutation (rows : list A) :
  sort_values_desc key rows ≡ₚ rows.
Proof.
  induction rows as [| a rows IH]; simpl; [reflexivity |].
  rewrite insert_desc_Permutation, IH. reflexivity.
Qed.

End SortValues.




(** * Further properties of the pipeline *)

(** ** Rule classifier: the effective decision table *)

(** X1: on scores in 1..5 each label is returned on exactly one region of
    the score cube; the regions below are the guards of the cascade with the
    overlaps resolved by the order of the branches. *)
Theorem segment_regions (row : ScoredCustomer) :
  in_score_range row ->
  (segment_customers row = "Champions" <->
     4 <= R_Score row /\ 4 <= F_Score row /\ 4 <= M_Score row) /\
  (segment_customers row = "Loyal Customers" <->
     R_Score row <= 3 /\ 4 <= F_Score row /\ 4 <= M_Score row) /\
  (segment_customers row = "Potential Loyalists" <->
     4 <= R_Score row /\
     (F_Score row = 3 \/ (4 <= F_Score row /\ M_Score row <= 3))) /\
  (segment_customers row = "New Customers" <->
     4 <= R_Score row /\ F_Score row <= 2) /\
  (segment_customers row = "Promising" <->
     R_Score row = 3 /\ 2 <= F_Score row /\ 2 <= M_Score row /\
     (F_Score row <= 3 \/ M_Score row <= 3)) /\
  (segment_customers row = "Need Attention" <->
     R_Score row = 3 /\ 3 <= F_Score row /\ M_Score row = 1) /\
  (segment_customers row = "About to Sleep" <->
     R_Score row = 2 /\ 2 <= F_Score row /\ 2 <= M_Score row /\
     (F_Score row <= 3 \/ M_Score row <= 3)) /\
  (segment_customers row = "At Risk" <->
     4 <= M_Score row /\
     ((R_Score row = 1 /\ F_Score row <= 3) \/
      (R_Score row = 2 /\ F_Score row = 1))) /\
  (segment_customers row = "Hibernating" <->
     2 <= F_Score row /\
     ((R_Score row = 1 /\ M_Score row <= 3) \/
      (R_Score row = 2 /\ M_Score row = 1))) /\
  (segment_customers row = "Lost" <->
     (R_Score row <= 2 /\ F_Score row = 1 /\ M_Score row <= 3) \/
     (R_Score row = 3 /\
      (F_Score row = 1 \/ (F_Score row = 2 /\ M_Score row = 1)))).
Proof.
  intros (Hr & Hf & Hm). unfold is_score in *.
  unfold segment_customers. split_rules;
    repeat match goal with
           | |- _ /\ _ => split
           | |- _ <-> _ => split
           end; intros Hgoal;
    first [ reflexivity | discriminate Hgoal | lia | exfalso; lia ].
Qed.

Lemma segment_regions_witness :
  segment_customers (score_row 3 4 1) = "Need Attention" <->
  R_Score (score_row 3 4 1) = 3 /\ 3 <= F_Score (score_row 3 4 1) /\
  M_Score (score_row 3 4 1) = 1.
Proof.
  refine (proj1 (proj2 (proj2 (proj2 (proj2 (proj2
            (segment_regions (score_row 3 4 1) _))))))).
  unfold in_score_range, is_score; simpl; lia.
Defined.

(** X2: every label of the classifier other than [Cannot Lose Them] is
    returned for some scores in 1..5. *)
Theorem segment_labels_reachable (label : string) :
  In label segment_labels -> label <> "Cannot Lose Them" ->
  exists row, in_score_range row /\ segment_customers row = label.
Proof.
  intros Hin Hne.
  assert (Hrange : forall r f m, 1 <= r <= 5 -> 1 <= f <= 5 -> 1 <= m <= 5 ->
                     in_score_range (score_row r f m)).
  { intros r f m ? ? ?. unfold in_score_range, is_score. simpl. lia. }
  unfold segment_labels in Hin. simpl in Hin.
  destruct Hin as [<- | [<- | [<- | [<- | [<- | [<- | [<- | [<- | [<- | [<- | [<- | []]]]]]]]]]]].
  - exists (score_row 5 5 5). split; [apply Hrange; lia | reflexivity].
  - exists (score_row 1 5 5). split; [apply Hrange; lia | reflexivity].
  - exists (score_row 5 3 1). split; [apply Hrange; lia | reflexivity].
  - exists (score_row 5 1 1). split; [apply Hrange; lia | reflexivity].
  - exists (score_row 3 2 2). split; [apply Hrange; lia | reflexivity].
  - exists (score_row 3 3 1). split; [apply Hrange; lia | reflexivity].
  - exists (score_row 2 2 2). split; [apply Hrange; lia | reflexivity].
  - exists (score_row 1 1 5). split; [apply Hrange; lia | reflexivity].
  - contradiction Hne. reflexivity.
  - exists (score_row 1 2 1). split; [apply Hrange; lia | reflexivity].
  - exists (score_row 1 1 1). split; [apply Hrange; lia | reflexivity].
Qed.

Lemma segment_labels_reachable_witness :
  exists row, in_score_range row /\ segment_customers row = "Hibernating".
Proof.
  apply (segment_labels_reachable "Hibernating").
  - unfold segment_labels. simpl. tauto.
  - discriminate.
Defined.

(** ** Metric calculator: order, conservation and row order of the input *)

(** A successful [calculate_rfm] had a non-empty input, and its rows carry
    the rows of the metric table in order. *)
Lemma calculate_rfm_inv (analysis_date : option Z)
    (customer_data : list Transaction) (rfm_data : list SegmentedCustomer) :
  calculate_rfm analysis_date customer_data = Ok rfm_data ->
  customer_data <> [] /\
  map (fun c => metrics (scored c)) rfm_data =
    rfm_metrics analysis_date customer_data /\
  Forall (fun c => in_score_range (scored c) /\
                   Segment c = segment_customers (scored c)) rfm_data.
Proof.
  intros H.
  assert (Hne : customer_data <> []).
  { intros ->. destruct analysis_date; discriminate H. }
  destruct (calculate_rfm_Ok_scored _ _ _ H) as [Hagg _].
  destruct (calculate_rfm_ok analysis_date customer_data Hne Hagg)
    as (rows & Hrows & Hm & Hall).
  rewrite Hrows in H. injection H as <-. auto.
Qed.

Lemma key_lt_Z_sorted (keys : list Z) :
  StronglySorted (key_lt Z.compare) keys -> StronglySorted Z.lt keys.
Proof.
  induction 1 as [| k keys _ IH Hall]; constructor; [exact IH |].
  eapply Forall_impl; [exact Hall |]. intros z Hz. exact Hz.
Qed.

(** X3: the rows of a successful [calculate_rfm] are in strictly increasing
    order of customer id, and the ids are exactly the customer ids of the
    transactions. *)
Theorem calculate_rfm_sorted_by_customer (analysis_date : option Z)
    (customer_data : list Transaction) (rfm_data : list SegmentedCustomer) :
  calculate_rfm analysis_date customer_data = Ok rfm_data ->
  StronglySorted Z.lt
    (map (fun c => rfm_customer_id (metrics (scored c))) rfm_data) /\
  (forall c, c ∈ map (fun c => rfm_customer_id (metrics (scored c))) rfm_data
             <-> c ∈ map customer_id customer_data).
Proof.
  intros H. destruct (calculate_rfm_inv _ _ _ H) as (_ & Hm & _).
  assert (Hids : map (fun c => rfm_customer_id (metrics (scored c))) rfm_data
                 = groupby_keys Z.compare (map customer_id customer_data)).
  { rewrite <- (rfm_metrics_ids analysis_date), <- Hm, map_map. reflexivity. }
  rewrite Hids. split.
  - apply key_lt_Z_sorted, groupby_keys_sorted.
    + intros x y. apply Z.compare_eq.
    + intros x y. apply Z.compare_antisym.
    + apply Z_compare_trans.
  - intros c. apply elem_of_customer_keys.
Qed.

Lemma calculate_rfm_sorted_by_customer_witness :
  exists rfm_data,
    calculate_rfm None five_customers = Ok rfm_data /\
    StronglySorted Z.lt
      (map (fun c => rfm_customer_id (metrics (scored c))) rfm_data).
Proof.
  eexists. split; [vm_compute; reflexivity |].
  refine (proj1 (calculate_rfm_sorted_by_customer None five_customers _ _)).
  vm_compute. reflexivity.
Defined.

Lemma Z_sum_indicator_absent {K : Type} `{EqDecision K}
    (f : K -> Z) (kx : K) (keys : list K) :
  kx ∉ keys ->
  Z_sum (map (fun k => f k + (if decide (kx = k) then 1 else 0)) keys)
  = Z_sum (map f keys).
Proof.
  induction keys as [| k keys IH]; intros Hx; simpl; [reflexivity |].
  apply not_elem_of_cons in Hx. destruct Hx as [Hne Hx].
  rewrite (IH Hx). destruct (decide (kx = k)); [contradiction | lia].
Qed.

Lemma Z_sum_indicator_present {K : Type} `{EqDecision K}
    (f : K -> Z) (kx : K) (keys : list K) :
  NoDup keys -> kx ∈ keys ->
  Z_sum (map (fun k => f k + (if decide (kx = k) then 1 else 0)) keys)
  = Z_sum (map f keys) + 1.
Proof.
  induction 1 as [| k keys Hk Hnd IH]; intros Hx; simpl.
  - apply elem_of_nil in Hx. contradiction.
  - apply elem_of_cons in Hx. destruct (decide (kx = k)) as [-> | Hne].
    + rewrite (Z_sum_indicator_absent f k keys Hk). lia.
    + destruct Hx as [Hx | Hx]; [contradiction |]. rewrite (IH Hx). lia.
Qed.

(** For distinct keys that cover the keys of the rows, the sizes of the
    groups add up to the number of rows. *)
Lemma group_sizes_sum {A K : Type} `{EqDecision K}
    (key : A -> K) (keys : list K) (l : list A) :
  NoDup keys ->
  (forall x, x ∈ l -> key x ∈ keys) ->
  Z_sum (map (fun k => Z.of_nat (length (filter (fun x => key x = k) l))) keys)
  = Z.of_nat (length l).
Proof.
  intros Hnd. induction l as [| x l IH]; intros Hcover.
  - simpl. clear. induction keys as [| k keys IHk]; simpl; lia.
  - assert (Hx : key x ∈ keys) by (apply Hcover, list_elem_of_here).
    assert (IH' := IH (fun y Hy => Hcover y (list_elem_of_further _ _ _ Hy))).
    replace (Z.of_nat (length (x :: l))) with (Z.of_nat (length l) + 1)
      by (simpl; lia).
    rewrite <- IH'.
    rewrite <- (Z_sum_indicator_present _ (key x) keys Hnd Hx).
    f_equal. apply map_ext. intros k. rewrite filter_cons.
    destruct (decide (key x = k)); simpl; lia.
Qed.

(** X4: the frequencies of the metric table add up to the number of
    transactions: every transaction is counted for exactly one customer. *)
Theorem rfm_metrics_frequency_total (analysis_date : option Z)
    (customer_data : list Transaction) :
  Z_sum (map Frequency (rfm_metrics analysis_date customer_data))
  = Z.of_nat (length customer_data).
Proof.
  unfold rfm_metrics. rewrite map_map. simpl.
  apply (group_sizes_sum customer_id).
  - apply customer_keys_NoDup.
  - intros t Ht. apply elem_of_customer_keys.
    apply list_elem_of_fmap_2. exact Ht.
Qed.

Lemma series_max_Permutation (x y : list Z) :
  x ≡ₚ y -> series_max x = series_max y.
Proof.
  intros Hp. destruct x as [| a x].
  - apply Permutation_nil in Hp. subst y. reflexivity.
  - assert (Hy : y <> []).
    { intros ->. symmetry in Hp. apply Permutation_nil in Hp. discriminate Hp. }
    destruct (series_max_spec (a :: x)) as (m & Hm & Hin & Hle); [discriminate |].
    destruct (series_max_spec y Hy) as (m' & Hm' & Hin' & Hle').
    rewrite Hm, Hm'. f_equal.
    rewrite Forall_forall in Hle, Hle'.
    assert (m <= m') by (apply Hle'; rewrite <- Hp; exact Hin).
    assert (m' <= m) by (apply Hle; rewrite Hp; exact Hin').
    lia.
Qed.

Lemma customer_keys_Permutation (x y : list Z) :
  x ≡ₚ y -> groupby_keys Z.compare x = groupby_keys Z.compare y.
Proof.
  intros Hp.
  assert (Hsorted : forall l, StronglySorted (key_lt Z.compare)
                                (groupby_keys Z.compare l)).
  { intros l. apply groupby_keys_sorted.
    - intros a b. apply Z.compare_eq.
    - intros a b. apply Z.compare_antisym.
    - apply Z_compare_trans. }
  apply (StronglySorted_unique_strong (key_lt Z.compare)).
  - intros a b _ _ Hab Hba. unfold key_lt in *.
    rewrite Z.compare_lt_iff in Hab, Hba. lia.
  - apply Hsorted.
  - apply Hsorted.
  - apply NoDup_Permutation; [apply customer_keys_NoDup .. |].
    intros c. rewrite !elem_of_customer_keys, Hp. reflexivity.
Qed.

(** X5: the customer ids, recencies and frequencies of the metric table do
    not depend on the order of the transactions. *)
Theorem rfm_metrics_row_order (analysis_date : option Z)
    (customer_data customer_data' : list Transaction) :
  customer_data ≡ₚ customer_data' ->
  map (fun c => (rfm_customer_id c, Recency c, Frequency c))
      (rfm_metrics analysis_date customer_data)
  = map (fun c => (rfm_customer_id c, Recency c, Frequency c))
        (rfm_metrics analysis_date customer_data').
Proof.
  intros Hp. unfold rfm_metrics. rewrite !map_map. simpl.
  rewrite (customer_keys_Permutation (map customer_id customer_data)
             (map customer_id customer_data'))
    by (apply fmap_Permutation; exact Hp).
  apply map_ext. intros c.
  assert (Hg : customer_group customer_data c ≡ₚ customer_group customer_data' c).
  { unfold customer_group. rewrite Hp. reflexivity. }
  assert (Hd : series_max (map transaction_date customer_data)
               = series_max (map transaction_date customer_data')).
  { apply series_max_Permutation, fmap_Permutation, Hp. }
  assert (Hgd : series_max (map transaction_date (customer_group customer_data c))
                = series_max (map transaction_date (customer_group customer_data' c))).
  { apply series_max_Permutation, fmap_Permutation, Hg. }
  unfold recency_of. rewrite Hd, Hgd, (Permutation_length Hg). reflexivity.
Qed.

Lemma rfm_metrics_row_order_witness :
  map (fun c => (rfm_customer_id c, Recency c, Frequency c))
      (rfm_metrics None four_customers)
  = map (fun c => (rfm_customer_id c, Recency c, Frequency c))
        (rfm_metrics None (rev four_customers)).
Proof.
  apply (rfm_metrics_row_order None four_customers (rev four_customers)).
  apply Permutation_rev.
Defined.

(** ** Score binner: the shape of the scores *)

Lemma astype_int_map {A : Type} (f : A -> option Z) (P : A -> Z -> Prop)
    (x : list A) :
  Forall (fun v => exists s, f v = Some s /\ P v s) x ->
  exists scores, astype_int (map f x) = Ok scores /\ Forall2 P x scores.
Proof.
  induction 1 as [| v x (s & Hs & HP) _ (scores & Heq & Hall)]; simpl.
  - exists []. split; [reflexivity | constructor].
  - exists (s :: scores). rewrite Hs, Heq. split; [reflexivity |].
    constructor; assumption.
Qed.

(** The scores of a successful binning, value by value: the value lies in
    one of the five bins, and its score is the label of that bin.  The edges
    are increasing, start below the smallest value and end at or above the
    largest. *)
Lemma pd_cut_scores_form (x : list Q) (labels : list Z) :
  x <> [] -> length labels = 5%nat -> NoDup labels ->
  exists b0 rest scores,
    nbins_to_bins x 5 = Ok (b0 :: rest) /\
    length rest = 5%nat /\
    pd_cut x 5 labels ≫= astype_int = Ok scores /\
    Forall2 (fun v s =>
               (1 <= searchsorted_left (b0 :: rest) v <= 5)%nat /\
               labels !! (searchsorted_left (b0 :: rest) v - 1)%nat = Some s)
            x scores.
Proof.
  intros Hx Hlen Hnodup.
  destruct (nbins_to_bins_5 x Hx) as (b0 & rest & Hbins & Hrest & Hsorted & Hin).
  exists b0, rest.
  unfold pd_cut. rewrite Hbins, result_bind_Ok.
  assert (Hl : (length labels =? length (b0 :: rest) - 1)%nat = true).
  { apply Nat.eqb_eq. simpl. lia. }
  unfold bins_to_cuts.
  rewrite (no_duplicate_edges _ Hsorted), (bool_decide_eq_true_2 _ Hnodup), Hl.
  cbn [andb negb]. rewrite result_bind_Ok.
  match goal with |- context [astype_int (map ?f x)] => set (cut := f) end.
  destruct (astype_int_map cut
              (fun v s =>
                 (1 <= searchsorted_left (b0 :: rest) v <= 5)%nat /\
                 labels !! (searchsorted_left (b0 :: rest) v - 1)%nat = Some s)
              x) as (scores & Hs & Hall).
  - eapply Forall_impl; [exact Hin |]. intros v [Hlo Hhi]. cbv beta.
    pose proof (searchsorted_left_pos b0 rest v Hlo) as H1.
    assert (H2 : (searchsorted_left (b0 :: rest) v < length (b0 :: rest))%nat).
    { apply searchsorted_left_lt_length. destruct Hhi as (b & Hb & Hvb).
      exists b. split; [apply list_elem_of_further; exact Hb | exact Hvb]. }
    subst cut. cbv beta zeta.
    set (ids := searchsorted_left (b0 :: rest) v) in *.
    assert (E1 : (ids =? length (b0 :: rest))%nat = false) by (apply Nat.eqb_neq; lia).
    assert (E2 : (ids =? 0)%nat = false) by (apply Nat.eqb_neq; lia).
    rewrite E1, E2. cbn [orb].
    destruct (lookup_lt_is_Some_2 labels (ids - 1)%nat) as [l Hl'].
    { simpl in H2. lia. }
    exists l. split; [exact Hl' |]. split; [| exact Hl'].
    simpl in H2. lia.
  - exists scores. repeat split; assumption.
Qed.

Lemma searchsorted_left_mono (a : list Q) (v w : Q) :
  (v <= w)%Q -> (searchsorted_left a v <= searchsorted_left a w)%nat.
Proof.
  intros Hvw. induction a as [| b a IH]; simpl; [lia |].
  destruct (Qltb b v) eqn:Ev; [| lia].
  apply Qltb_lt in Ev. assert (Ew : Qltb b w = true) by (apply Qltb_lt; lra).
  rewrite Ew. lia.
Qed.

Lemma ascending_label (i : nat) (s : Z) :
  [1; 2; 3; 4; 5] !! i = Some s -> s = Z.of_nat i + 1.
Proof.
  do 5 (destruct i as [| i]; [intros [= <-]; reflexivity |]). discriminate.
Qed.

Lemma descending_label (i : nat) (s : Z) :
  [5; 4; 3; 2; 1] !! i = Some s -> s = 5 - Z.of_nat i.
Proof.
  do 5 (destruct i as [| i]; [intros [= <-]; reflexivity |]). discriminate.
Qed.

(** The three score columns of a successful [score_columns], each related to
    the column it bins. *)
Lemma score_columns_form (rfm_data : list CustomerMetrics) (r f m : list Z) :
  score_columns rfm_data = Ok (r, f, m) ->
  pd_cut (map (fun c => inject_Z (Recency c)) rfm_data) 5 [5; 4; 3; 2; 1]
    ≫= astype_int = Ok r /\
  pd_cut (rank_first (map (fun c => inject_Z (Frequency c)) rfm_data))
    5 [1; 2; 3; 4; 5] ≫= astype_int = Ok f /\
  pd_cut (rank_first (map Monetary rfm_data)) 5 [1; 2; 3; 4; 5]
    ≫= astype_int = Ok m.
Proof.
  unfold score_columns.
  destruct (pd_cut (map (fun c => inject_Z (Recency c)) rfm_data) 5 _
              ≫= astype_int) as [r' |]; [| discriminate].
  rewrite result_bind_Ok.
  destruct (pd_cut (rank_first (map (fun c => inject_Z (Frequency c)) rfm_data))
              5 _ ≫= astype_int) as [f' |]; [| discriminate].
  rewrite result_bind_Ok.
  destruct (pd_cut (rank_first (map Monetary rfm_data)) 5 _
              ≫= astype_int) as [m' |]; [| discriminate].
  rewrite result_bind_Ok. intros [= -> -> ->]. auto.
Qed.

(** The rows of a successful [calculate_rfm], column by column. *)
Lemma calculate_rfm_columns (analysis_date : option Z)
    (customer_data : list Transaction) (rfm_data : list SegmentedCustomer) :
  calculate_rfm analysis_date customer_data = Ok rfm_data ->
  exists r f m,
    score_columns (rfm_metrics analysis_date customer_data) = Ok (r, f, m) /\
    forall row, row ∈ rfm_data ->
      exists i,
        rfm_metrics analysis_date customer_data !! i = Some (metrics (scored row)) /\
        r !! i = Some (R_Score (scored row)) /\
        f !! i = Some (F_Score (scored row)) /\
        m !! i = Some (M_Score (scored row)).
Proof.
  intros Hcall. apply calculate_rfm_Ok_scored in Hcall.
  destruct Hcall as [_ Hcall]. revert Hcall.
  destruct (score_columns (rfm_metrics analysis_date customer_data))
    as [[[r f] m] |]; [| discriminate].
  rewrite result_bind_Ok. intros [= <-].
  exists r, f, m. split; [reflexivity |].
  intros row Hrow.
  apply list_elem_of_fmap in Hrow. destruct Hrow as (srow & -> & Hrow).
  apply list_elem_of_fmap in Hrow.
  destruct Hrow as ([c [r0 [f0 m0]]] & -> & Hrow).
  apply list_elem_of_lookup_1 in Hrow. destruct Hrow as (i & Hi).
  exists i. simpl.
  apply lookup_zip_with_Some in Hi.
  destruct Hi as (c' & rest1 & [= <- <-] & Hc & Hi).
  apply lookup_zip_with_Some in Hi.
  destruct Hi as (r' & rest2 & [= <- <-] & Hr & Hi).
  apply lookup_zip_with_Some in Hi.
  destruct Hi as (f' & m' & [= <- <-] & Hf & Hm).
  auto.
Qed.

Lemma pd_cut_ascending (x : list Q) (scores : list Z) (i j : nat)
    (v w : Q) (s t : Z) :
  pd_cut x 5 [1; 2; 3; 4; 5] ≫= astype_int = Ok scores ->
  x !! i = Some v -> x !! j = Some w ->
  scores !! i = Some s -> scores !! j = Some t ->
  (v <= w)%Q -> s <= t.
Proof.
  intros Hcut Hv Hw Hs Ht Hvw.
  assert (Hx : x <> []) by (intros ->; discriminate Hv).
  destruct (pd_cut_scores_form x [1; 2; 3; 4; 5] Hx eq_refl
              (proj2 NoDup_score_labels))
    as (b0 & rest & scores' & _ & _ & Hcut' & Hall).
  rewrite Hcut in Hcut'. injection Hcut' as <-.
  destruct (Forall2_lookup_lr _ _ _ _ _ _ Hall Hv Hs) as [Hi Hli].
  destruct (Forall2_lookup_lr _ _ _ _ _ _ Hall Hw Ht) as [Hj Hlj].
  apply ascending_label in Hli, Hlj.
  pose proof (searchsorted_left_mono (b0 :: rest) v w Hvw). lia.
Qed.

Lemma pd_cut_descending (x : list Q) (scores : list Z) (i j : nat)
    (v w : Q) (s t : Z) :
  pd_cut x 5 [5; 4; 3; 2; 1] ≫= astype_int = Ok scores ->
  x !! i = Some v -> x !! j = Some w ->
  scores !! i = Some s -> scores !! j = Some t ->
  (v <= w)%Q -> t <= s.
Proof.
  intros Hcut Hv Hw Hs Ht Hvw.
  assert (Hx : x <> []) by (intros ->; discriminate Hv).
  destruct (pd_cut_scores_form x [5; 4; 3; 2; 1] Hx eq_refl
              (proj1 NoDup_score_labels))
    as (b0 & rest & scores' & _ & _ & Hcut' & Hall).
  rewrite Hcut in Hcut'. injection Hcut' as <-.
  destruct (Forall2_lookup_lr _ _ _ _ _ _ Hall Hv Hs) as [Hi Hli].
  destruct (Forall2_lookup_lr _ _ _ _ _ _ Hall Hw Ht) as [Hj Hlj].
  apply descending_label in Hli, Hlj.
  pose proof (searchsorted_left_mono (b0 :: rest) v w Hvw). lia.
Qed.

Lemma count_if_nonneg {A : Type} (p : A -> bool) (l : list A) :
  0 <= count_if p l.
Proof. unfold count_if. lia. Qed.

Lemma count_if_cons {A : Type} (p : A -> bool) (a : A) (l : list A) :
  count_if p (a :: l) = (if p a then 1 else 0) + count_if p l.
Proof. unfold count_if. simpl. destruct (p a); simpl; lia. Qed.

Lemma count_if_take {A : Type} (p : A -> bool) (i : nat) (l : list A) :
  count_if p (take i l) <= count_if p l.
Proof.
  revert i. induction l as [| a l IH]; intros [| i]; simpl.
  - lia.
  - lia.
  - apply count_if_nonneg.
  - rewrite !count_if_cons. specialize (IH i). lia.
Qed.

(** Values below or equal to [v] are strictly below any [w] above [v]. *)
Lemma count_below_mono (x : list Q) (v w : Q) :
  (v < w)%Q ->
  count_if (fun y => Qltb y v) x + count_if (fun y => Qeq_bool y v) x
  <= count_if (fun y => Qltb y w) x.
Proof.
  intros Hvw. induction x as [| y x IH]; [unfold count_if; simpl; lia |].
  rewrite !count_if_cons.
  destruct (Qltb y v) eqn:E1.
  - apply Qltb_lt in E1.
    assert (E2 : Qeq_bool y v = false).
    { apply not_true_iff_false. intros H. apply Qeq_bool_eq in H. lra. }
    assert (E3 : Qltb y w = true) by (apply Qltb_lt; lra).
    rewrite E2, E3. lia.
  - destruct (Qeq_bool y v) eqn:E2.
    + apply Qeq_bool_eq in E2.
      assert (E3 : Qltb y w = true) by (apply Qltb_lt; lra).
      rewrite E3. lia.
    + destruct (Qltb y w); lia.
Qed.

Lemma rank_first_lookup (x : list Q) (i : nat) (v : Q) :
  x !! i = Some v ->
  rank_first x !! i =
  Some (inject_Z (1 + count_if (fun w => Qltb w v) x
                    + count_if (fun w => Qeq_bool w v) (take i x))).
Proof.
  intros H. unfold rank_first. rewrite list_lookup_imap, H. reflexivity.
Qed.

(** A strictly larger value has a larger rank. *)
Lemma rank_first_mono (x : list Q) (i j : nat) (v w ri rj : Q) :
  x !! i = Some v -> x !! j = Some w -> (v < w)%Q ->
  rank_first x !! i = Some ri -> rank_first x !! j = Some rj ->
  (ri <= rj)%Q.
Proof.
  intros Hv Hw Hvw Hi Hj.
  rewrite (rank_first_lookup x i v Hv) in Hi. injection Hi as <-.
  rewrite (rank_first_lookup x j w Hw) in Hj. injection Hj as <-.
  rewrite <- Zle_Qle.
  pose proof (count_below_mono x v w Hvw).
  pose proof (count_if_take (fun y => Qeq_bool y v) i x).
  pose proof (count_if_nonneg (fun y => Qeq_bool y w) (take j x)).
  lia.
Qed.

(** ** Score binner: order of the scores *)

(** X6: in the result of [calculate_rfm] a customer with a smaller or equal
    recency never has a lower recency score. *)
Theorem r_score_antitone (analysis_date : option Z)
    (customer_data : list Transaction) (rfm_data : list SegmentedCustomer)
    (a b : SegmentedCustomer) :
  calculate_rfm analysis_date customer_data = Ok rfm_data ->
  a ∈ rfm_data -> b ∈ rfm_data ->
  Recency (metrics (scored a)) <= Recency (metrics (scored b)) ->
  R_Score (scored b) <= R_Score (scored a).
Proof.
  intros H Ha Hb Hab.
  destruct (calculate_rfm_columns _ _ _ H) as (r & f & m & Hs & Hrows).
  destruct (score_columns_form _ _ _ _ Hs) as (Hr & _ & _).
  destruct (Hrows a Ha) as (i & Hia & Hir & _).
  destruct (Hrows b Hb) as (j & Hjb & Hjr & _).
  eapply (pd_cut_descending _ r i j _ _ _ _ Hr).
  - rewrite list_lookup_fmap, Hia. reflexivity.
  - rewrite list_lookup_fmap, Hjb. reflexivity.
  - exact Hir.
  - exact Hjr.
  - simpl. rewrite <- Zle_Qle. exact Hab.
Qed.

Lemma r_score_antitone_witness :
  exists rfm_data a b,
    calculate_rfm None five_customers = Ok rfm_data /\
    rfm_data !! 4%nat = Some a /\ rfm_data !! 0%nat = Some b /\
    R_Score (scored b) <= R_Score (scored a).
Proof.
  eexists _, _, _.
  split; [vm_compute; reflexivity |].
  split; [reflexivity |]. split; [reflexivity |].
  eapply (r_score_antitone None five_customers).
  - vm_compute. reflexivity.
  - eapply (list_elem_of_lookup_2 _ 4%nat). reflexivity.
  - eapply (list_elem_of_lookup_2 _ 0%nat). reflexivity.
  - vm_compute. discriminate.
Defined.

(** X7: in the result of [calculate_rfm] a customer with a strictly larger
    frequency never has a lower frequency score, and a customer with a
    strictly larger monetary value never has a lower monetary score. *)
Theorem f_m_score_monotone (analysis_date : option Z)
    (customer_data : list Transaction) (rfm_data : list SegmentedCustomer)
    (a b : SegmentedCustomer) :
  calculate_rfm analysis_date customer_data = Ok rfm_data ->
  a ∈ rfm_data -> b ∈ rfm_data ->
  (Frequency (metrics (scored a)) < Frequency (metrics (scored b)) ->
   F_Score (scored a) <= F_Score (scored b)) /\
  ((Monetary (metrics (scored a)) < Monetary (metrics (scored b)))%Q ->
   M_Score (scored a) <= M_Score (scored b)).
Proof.
  intros H Ha Hb.
  destruct (calculate_rfm_columns _ _ _ H) as (r & f & m & Hs & Hrows).
  destruct (score_columns_form _ _ _ _ Hs) as (_ & Hf & Hm).
  destruct (Hrows a Ha) as (i & Hia & _ & Hif & Him).
  destruct (Hrows b Hb) as (j & Hjb & _ & Hjf & Hjm).
  split; intros Hab.
  - set (x := map (fun c => inject_Z (Frequency c))
                  (rfm_metrics analysis_date customer_data)) in *.
    assert (Hxi : x !! i = Some (inject_Z (Frequency (metrics (scored a)))))
      by (unfold x; rewrite list_lookup_fmap, Hia; reflexivity).
    assert (Hxj : x !! j = Some (inject_Z (Frequency (metrics (scored b)))))
      by (unfold x; rewrite list_lookup_fmap, Hjb; reflexivity).
    eapply (pd_cut_ascending _ f i j _ _ _ _ Hf).
    + apply rank_first_lookup. exact Hxi.
    + apply rank_first_lookup. exact Hxj.
    + exact Hif.
    + exact Hjf.
    + eapply (rank_first_mono x i j); eauto using rank_first_lookup.
      rewrite <- Zlt_Qlt. exact Hab.
  - set (x := map Monetary (rfm_metrics analysis_date customer_data)) in *.
    assert (Hxi : x !! i = Some (Monetary (metrics (scored a))))
      by (unfold x; rewrite list_lookup_fmap, Hia; reflexivity).
    assert (Hxj : x !! j = Some (Monetary (metrics (scored b))))
      by (unfold x; rewrite list_lookup_fmap, Hjb; reflexivity).
    eapply (pd_cut_ascending _ m i j _ _ _ _ Hm).
    + apply rank_first_lookup. exact Hxi.
    + apply rank_first_lookup. exact Hxj.
    + exact Him.
    + exact Hjm.
    + eapply (rank_first_mono x i j); eauto using rank_first_lookup.
Qed.

Lemma f_m_score_monotone_witness :
  exists rfm_data a b,
    calculate_rfm None five_customers = Ok rfm_data /\
    rfm_data !! 3%nat = Some a /\ rfm_data !! 4%nat = Some b /\
    ((Monetary (metrics (scored a)) < Monetary (metrics (scored b)))%Q ->
     M_Score (scored a) <= M_Score (scored b)).
Proof.
  eexists _, _, _.
  split; [vm_compute; reflexivity |].
  split; [reflexivity |]. split; [reflexivity |].
  eapply (f_m_score_monotone None five_customers).
  - vm_compute. reflexivity.
  - eapply (list_elem_of_lookup_2 _ 3%nat). reflexivity.
  - eapply (list_elem_of_lookup_2 _ 4%nat). reflexivity.
Defined.

(** ** Score binner: the extreme and the constant columns *)

Lemma fold_left_Qmin_attained (l : list Q) (a : Q) :
  exists u, u ∈ a :: l /\ (u == fold_left Qmin l a)%Q.
Proof.
  revert a. induction l as [| v l IH]; intros a; simpl.
  - exists a. split; [apply list_elem_of_here | reflexivity].
  - destruct (IH (Qmin a v)) as (u & Hu & Heq).
    apply elem_of_cons in Hu. destruct Hu as [-> | Hu].
    + destruct (Q.min_dec a v) as [E | E].
      * exists a. split; [apply list_elem_of_here |]. rewrite <- Heq, E. reflexivity.
      * exists v. split; [apply list_elem_of_further, list_elem_of_here |].
        rewrite <- Heq, E. reflexivity.
    + exists u. split; [| exact Heq].
      apply list_elem_of_further, list_elem_of_further, Hu.
Qed.

Lemma fold_left_Qmax_attained (l : list Q) (a : Q) :
  exists u, u ∈ a :: l /\ (u == fold_left Qmax l a)%Q.
Proof.
  revert a. induction l as [| v l IH]; intros a; simpl.
  - exists a. split; [apply list_elem_of_here | reflexivity].
  - destruct (IH (Qmax a v)) as (u & Hu & Heq).
    apply elem_of_cons in Hu. destruct Hu as [-> | Hu].
    + destruct (Q.max_dec a v) as [E | E].
      * exists a. split; [apply list_elem_of_here |]. rewrite <- Heq, E. reflexivity.
      * exists v. split; [apply list_elem_of_further, list_elem_of_here |].
        rewrite <- Heq, E. reflexivity.
    + exists u. split; [| exact Heq].
      apply list_elem_of_further, list_elem_of_further, Hu.
Qed.

(** The smallest and the largest value of a column, as the binning computes
    them. *)
Lemma column_range (x0 : Q) (xs : list Q) :
  let mn := fold_left Qmin xs x0 in
  let mx := fold_left Qmax xs x0 in
  Forall (fun v => mn <= v /\ v <= mx)%Q (x0 :: xs) /\
  (exists u, u ∈ x0 :: xs /\ (u == mn)%Q) /\
  (exists u, u ∈ x0 :: xs /\ (u == mx)%Q).
Proof.
  intros mn mx.
  destruct (fold_left_Qmin_le xs x0) as [Hmn0 Hmn].
  destruct (fold_left_Qmax_ge xs x0) as [Hmx0 Hmx].
  split; [| split].
  - constructor; [split; assumption |].
    rewrite Forall_forall in Hmn, Hmx. apply Forall_forall.
    intros v Hv. split; [apply Hmn | apply Hmx]; exact Hv.
  - apply fold_left_Qmin_attained.
  - apply fold_left_Qmax_attained.
Qed.

Lemma nbins_to_bins_5_spread (x0 : Q) (xs : list Q) :
  let mn := fold_left Qmin xs x0 in
  let mx := fold_left Qmax xs x0 in
  let step := ((mx - mn) / 5)%Q in
  (mn < mx)%Q ->
  nbins_to_bins (x0 :: xs) 5 =
  Ok [0 * step + mn - (mx - mn) * (1 # 1000); 1 * step + mn; 2 * step + mn;
      3 * step + mn; 4 * step + mn; mx]%Q.
Proof.
  intros mn mx step Hlt. unfold nbins_to_bins. fold mn. fold mx.
  assert (E : Qeq_bool mn mx = false).
  { apply not_true_iff_false. intros H. apply Qeq_bool_eq in H. lra. }
  rewrite E. reflexivity.
Qed.

Lemma nbins_to_bins_5_constant (x0 : Q) (xs : list Q) :
  let mn := fold_left Qmin xs x0 in
  let mx := fold_left Qmax xs x0 in
  let lo := (mn - (if Qeq_bool mn 0 then 1 # 1000 else (1 # 1000) * Qabs mn))%Q in
  let hi := (mx + (if Qeq_bool mx 0 then 1 # 1000 else (1 # 1000) * Qabs mx))%Q in
  let step := ((hi - lo) / 5)%Q in
  (mn == mx)%Q ->
  nbins_to_bins (x0 :: xs) 5 =
  Ok [0 * step + lo; 1 * step + lo; 2 * step + lo;
      3 * step + lo; 4 * step + lo; hi]%Q.
Proof.
  intros mn mx lo hi step Heq. unfold nbins_to_bins. fold mn. fold mx.
  assert (E : Qeq_bool mn mx = true) by (apply Qeq_eq_bool; exact Heq).
  rewrite E. reflexivity.
Qed.

Lemma widening_eq (a b : Q) :
  (a == b)%Q ->
  ((if Qeq_bool a 0 then 1 # 1000 else (1 # 1000) * Qabs a)
   == (if Qeq_bool b 0 then 1 # 1000 else (1 # 1000) * Qabs b))%Q.
Proof.
  intros Hab.
  destruct (Qeq_bool a 0) eqn:Ea; destruct (Qeq_bool b 0) eqn:Eb.
  - reflexivity.
  - apply Qeq_bool_eq in Ea. apply Qeq_bool_neq in Eb.
    exfalso. apply Eb. rewrite <- Hab. exact Ea.
  - apply Qeq_bool_eq in Eb. apply Qeq_bool_neq in Ea.
    exfalso. apply Ea. rewrite Hab. exact Eb.
  - rewrite (Qabs_wd _ _ Hab). reflexivity.
Qed.

Lemma searchsorted_left_first (e0 e1 : Q) (rest : list Q) (v : Q) :
  (e0 < v)%Q -> (v <= e1)%Q -> searchsorted_left (e0 :: e1 :: rest) v = 1%nat.
Proof.
  intros H0 H1. simpl.
  apply Qltb_lt in H0. apply Qltb_ge in H1. rewrite H0, H1. reflexivity.
Qed.

Lemma searchsorted_left_third (e0 e1 e2 e3 : Q) (rest : list Q) (v : Q) :
  (e0 < v)%Q -> (e1 < v)%Q -> (e2 < v)%Q -> (v <= e3)%Q ->
  searchsorted_left (e0 :: e1 :: e2 :: e3 :: rest) v = 3%nat.
Proof.
  intros H0 H1 H2 H3. simpl.
  apply Qltb_lt in H0, H1, H2. apply Qltb_ge in H3.
  rewrite H0, H1, H2, H3. reflexivity.
Qed.

Lemma searchsorted_left_fifth (e0 e1 e2 e3 e4 e5 : Q) (v : Q) :
  (e0 < v)%Q -> (e1 < v)%Q -> (e2 < v)%Q -> (e3 < v)%Q -> (e4 < v)%Q ->
  (v <= e5)%Q ->
  searchsorted_left [e0; e1; e2; e3; e4; e5] v = 5%nat.
Proof.
  intros H0 H1 H2 H3 H4 H5. simpl.
  apply Qltb_lt in H0, H1, H2, H3, H4. apply Qltb_ge in H5.
  rewrite H0, H1, H2, H3, H4, H5. reflexivity.
Qed.

(** The label of a value of a binned column: the first label for the
    smallest value and the last for the largest when the column has two
    different values, the middle label when all values are equal. *)
Lemma pd_cut_extremes (x : list Q) (labels scores : list Z)
    (i : nat) (v : Q) (s : Z) :
  length labels = 5%nat -> NoDup labels ->
  pd_cut x 5 labels ≫= astype_int = Ok scores ->
  x !! i = Some v -> scores !! i = Some s ->
  ((forall u, u ∈ x -> (v <= u)%Q) -> (exists u, u ∈ x /\ (v < u)%Q) ->
   labels !! 0%nat = Some s) /\
  ((forall u, u ∈ x -> (u <= v)%Q) -> (exists u, u ∈ x /\ (u < v)%Q) ->
   labels !! 4%nat = Some s) /\
  ((forall u, u ∈ x -> (u == v)%Q) -> labels !! 2%nat = Some s).
Proof.
  intros Hlen Hnodup Hcut Hv Hs.
  assert (Hx : x <> []) by (intros ->; discriminate Hv).
  destruct (pd_cut_scores_form x labels Hx Hlen Hnodup)
    as (b0 & rest & scores' & Hbins & _ & Hcut' & Hall).
  rewrite Hcut in Hcut'. injection Hcut' as <-.
  destruct (Forall2_lookup_lr _ _ _ _ _ _ Hall Hv Hs) as [_ Hlabel].
  assert (Hvin : v ∈ x) by (eapply list_elem_of_lookup_2; exact Hv).
  destruct x as [| x0 xs]; [congruence |].
  destruct (column_range x0 xs) as (Hrange & (umn & Humn & Hmn) & (umx & Humx & Hmx)).
  set (mn := fold_left Qmin xs x0) in *. set (mx := fold_left Qmax xs x0) in *.
  rewrite Forall_forall in Hrange.
  destruct (Hrange v Hvin) as [Hv1 Hv2].
  split; [| split].
  - intros Hmin (u & Hu & Hvu).
    assert (Hvmn : (v == mn)%Q).
    { apply Qle_antisym; [| exact Hv1]. rewrite <- Hmn. apply Hmin, Humn. }
    assert (Hlt : (mn < mx)%Q).
    { destruct (Hrange u Hu). lra. }
    rewrite (nbins_to_bins_5_spread x0 xs Hlt) in Hbins.
    injection Hbins as <- <-. fold mn mx in Hlabel.
    rewrite searchsorted_left_first in Hlabel; [exact Hlabel | |].
    + assert (Hstep : ((mx - mn) / 5 * 5 == mx - mn)%Q) by field. lra.
    + assert (Hstep : ((mx - mn) / 5 * 5 == mx - mn)%Q) by field. lra.
  - intros Hmax (u & Hu & Huv).
    assert (Hvmx : (v == mx)%Q).
    { apply Qle_antisym; [exact Hv2 |]. rewrite <- Hmx. apply Hmax, Humx. }
    assert (Hlt : (mn < mx)%Q).
    { destruct (Hrange u Hu). lra. }
    rewrite (nbins_to_bins_5_spread x0 xs Hlt) in Hbins.
    injection Hbins as <- <-. fold mn mx in Hlabel.
    assert (Hstep : ((mx - mn) / 5 * 5 == mx - mn)%Q) by field.
    rewrite searchsorted_left_fifth in Hlabel; [exact Hlabel | lra ..].
  - intros Heq.
    assert (Hvmn : (mn == v)%Q) by (rewrite <- Hmn; apply Heq, Humn).
    assert (Hvmx : (mx == v)%Q) by (rewrite <- Hmx; apply Heq, Humx).
    assert (Hmm : (mn == mx)%Q) by (rewrite Hvmn, Hvmx; reflexivity).
    rewrite (nbins_to_bins_5_constant x0 xs Hmm) in Hbins.
    injection Hbins as <- <-. fold mn mx in Hlabel.
    pose proof (widening_pos mn) as Hw. pose proof (widening_eq mn mx Hmm) as Hww.
    set (wl := if Qeq_bool mn 0 then _ else _) in *.
    set (wr := if Qeq_bool mx 0 then _ else _) in *.
    assert (Hstep : ((mx + wr - (mn - wl)) / 5 * 5 == mx + wr - (mn - wl))%Q)
      by field.
    rewrite searchsorted_left_third in Hlabel; [exact Hlabel | lra ..].
Qed.

Lemma recency_column_elem (analysis_date : option Z)
    (customer_data : list Transaction) (rfm_data : list SegmentedCustomer)
    (u : Q) :
  map (fun c => metrics (scored c)) rfm_data
    = rfm_metrics analysis_date customer_data ->
  u ∈ map (fun c => inject_Z (Recency c))
          (rfm_metrics analysis_date customer_data) ->
  exists c, c ∈ rfm_data /\ u = inject_Z (Recency (metrics (scored c))).
Proof.
  intros Hm Hu. rewrite <- Hm, map_map in Hu.
  apply list_elem_of_fmap in Hu. destruct Hu as (c & -> & Hc).
  exists c. split; [exact Hc | reflexivity].
Qed.

(** X8: in the result of [calculate_rfm], when two customers differ in
    recency the most recent customers have recency score 5 and the least
    recent ones have recency score 1; when all customers have the same
    recency, all have recency score 3. *)
Theorem r_score_extremes (analysis_date : option Z)
    (customer_data : list Transaction) (rfm_data : list SegmentedCustomer)
    (a : SegmentedCustomer) :
  calculate_rfm analysis_date customer_data = Ok rfm_data ->
  a ∈ rfm_data ->
  ((forall c, c ∈ rfm_data ->
      Recency (metrics (scored a)) <= Recency (metrics (scored c))) ->
   (exists c, c ∈ rfm_data /\
      Recency (metrics (scored a)) < Recency (metrics (scored c))) ->
   R_Score (scored a) = 5) /\
  ((forall c, c ∈ rfm_data ->
      Recency (metrics (scored c)) <= Recency (metrics (scored a))) ->
   (exists c, c ∈ rfm_data /\
      Recency (metrics (scored c)) < Recency (metrics (scored a))) ->
   R_Score (scored a) = 1) /\
  ((forall c, c ∈ rfm_data ->
      Recency (metrics (scored c)) = Recency (metrics (scored a))) ->
   R_Score (scored a) = 3).
Proof.
  intros H Ha.
  destruct (calculate_rfm_inv _ _ _ H) as (_ & Hmet & _).
  destruct (calculate_rfm_columns _ _ _ H) as (r & f & m & Hs & Hrows).
  destruct (score_columns_form _ _ _ _ Hs) as (Hr & _ & _).
  destruct (Hrows a Ha) as (i & Hia & Hir & _).
  set (x := map (fun c => inject_Z (Recency c))
                (rfm_metrics analysis_date customer_data)) in *.
  assert (Hxi : x !! i = Some (inject_Z (Recency (metrics (scored a)))))
    by (unfold x; rewrite list_lookup_fmap, Hia; reflexivity).
  assert (Hin : forall c, c ∈ rfm_data ->
                  inject_Z (Recency (metrics (scored c))) ∈ x).
  { intros c Hc. unfold x. rewrite <- Hmet, map_map.
    apply (list_elem_of_fmap_2
             (fun c => inject_Z (Recency (metrics (scored c))))). exact Hc. }
  destruct (pd_cut_extremes x [5; 4; 3; 2; 1] r i _ _ eq_refl
              (proj1 NoDup_score_labels) Hr Hxi Hir) as (Hmin & Hmax & Hconst).
  split; [| split].
  - intros Hall (c & Hc & Hlt).
    assert (Hl : [5; 4; 3; 2; 1] !! 0%nat = Some (R_Score (scored a))).
    { apply Hmin.
      - intros u Hu.
        destruct (recency_column_elem _ _ _ u Hmet Hu) as (c' & Hc' & ->).
        rewrite <- Zle_Qle. apply Hall, Hc'.
      - exists (inject_Z (Recency (metrics (scored c)))).
        split; [apply Hin, Hc | rewrite <- Zlt_Qlt; exact Hlt]. }
    injection Hl as <-. reflexivity.
  - intros Hall (c & Hc & Hlt).
    assert (Hl : [5; 4; 3; 2; 1] !! 4%nat = Some (R_Score (scored a))).
    { apply Hmax.
      - intros u Hu.
        destruct (recency_column_elem _ _ _ u Hmet Hu) as (c' & Hc' & ->).
        rewrite <- Zle_Qle. apply Hall, Hc'.
      - exists (inject_Z (Recency (metrics (scored c)))).
        split; [apply Hin, Hc | rewrite <- Zlt_Qlt; exact Hlt]. }
    injection Hl as <-. reflexivity.
  - intros Hall.
    assert (Hl : [5; 4; 3; 2; 1] !! 2%nat = Some (R_Score (scored a))).
    { apply Hconst. intros u Hu.
      destruct (recency_column_elem _ _ _ u Hmet Hu) as (c' & Hc' & ->).
      rewrite (Hall c' Hc'). reflexivity. }
    injection Hl as <-. reflexivity.
Qed.

Lemma r_score_extremes_witness :
  exists rfm_data a,
    calculate_rfm None five_customers = Ok rfm_data /\
    rfm_data !! 4%nat = Some a /\ R_Score (scored a) = 5.
Proof.
  eexists _, _.
  split; [vm_compute; reflexivity |].
  match goal with |- ?rows !! _ = _ /\ _ => pose (rfm_data := rows) end.
  assert (H : calculate_rfm None five_customers = Ok rfm_data)
    by (vm_compute; reflexivity).
  split; [reflexivity |].
  refine (proj1 (r_score_extremes None five_customers rfm_data _ H _) _ _).
  - eapply (list_elem_of_lookup_2 _ 4%nat). reflexivity.
  - intros c Hc. unfold rfm_data in Hc.
    repeat (apply elem_of_cons in Hc; destruct Hc as [-> | Hc];
            [vm_compute; discriminate |]).
    apply elem_of_nil in Hc. contradiction.
  - eexists. split; [apply list_elem_of_here |]. vm_compute. reflexivity.
Defined.

(** The RFM score of a row is the mean of its three scores. *)
Lemma calculate_rfm_rfm_score (analysis_date : option Z)
    (customer_data : list Transaction) (rfm_data : list SegmentedCustomer)
    (row : SegmentedCustomer) :
  calculate_rfm analysis_date customer_data = Ok rfm_data ->
  row ∈ rfm_data ->
  RFM_Score (scored row) =
  (inject_Z (R_Score (scored row) + F_Score (scored row)
             + M_Score (scored row)) / 3)%Q.
Proof.
  intros Hcall. apply calculate_rfm_Ok_scored in Hcall.
  destruct Hcall as [_ Hcall]. revert Hcall.
  destruct (score_columns (rfm_metrics analysis_date customer_data))
    as [[[r f] m] |]; [| discriminate].
  rewrite result_bind_Ok. intros [= <-] Hrow.
  apply list_elem_of_fmap in Hrow. destruct Hrow as (srow & -> & Hrow).
  apply list_elem_of_fmap in Hrow.
  destruct Hrow as ([c [r0 [f0 m0]]] & -> & _). reflexivity.
Qed.

Lemma NoDup_constant {A : Type} (c : A) (l : list A) :
  NoDup l -> l <> [] -> (forall x, x ∈ l -> x = c) -> l = [c].
Proof.
  intros Hnd Hne Hall. destruct l as [| a [| b l]]; [congruence | |].
  - rewrite (Hall a (list_elem_of_here _ _)). reflexivity.
  - exfalso. apply NoDup_cons_1_1 in Hnd. apply Hnd.
    rewrite (Hall a (list_elem_of_here _ _)).
    rewrite <- (Hall b (list_elem_of_further _ _ _ (list_elem_of_here _ _))).
    apply list_elem_of_here.
Qed.

Lemma customer_group_all (customer_data : list Transaction) (c : Z) :
  (forall t, t ∈ customer_data -> customer_id t = c) ->
  customer_group customer_data c = customer_data.
Proof.
  unfold customer_group.
  induction customer_data as [| t rest IH]; intros Hall; [reflexivity |].
  rewrite filter_cons_True by (apply Hall, list_elem_of_here).
  f_equal. apply IH. intros t' Ht'. apply Hall, list_elem_of_further, Ht'.
Qed.

(** X9: let all transactions belong to one customer, whose latest timestamp
    is [latest], and let [now] be the analysis date.  With the default
    analysis date the two are equal.  When their difference fits a
    [Timedelta], [calculate_rfm] returns a single row with the three scores
    equal to 3, an RFM score of 3 and the segment [Promising], whatever the
    dates and amounts are; when the analysis date is later than [latest] by
    more than the largest [Timedelta], it raises [OutOfBounds]. *)
Theorem single_customer_promising (analysis_date : option Z)
    (customer_data : list Transaction) (c now latest : Z) :
  (forall t, t ∈ customer_data -> customer_id t = c) ->
  is_analysis_date analysis_date customer_data now ->
  latest ∈ map transaction_date customer_data ->
  Forall (fun d => d <= latest) (map transaction_date customer_data) ->
  (analysis_date = None -> now = latest) /\
  (- Timedelta_max <= now - latest <= Timedelta_max ->
   exists row,
     calculate_rfm analysis_date customer_data = Ok [row] /\
     rfm_customer_id (metrics (scored row)) = c /\
     R_Score (scored row) = 3 /\ F_Score (scored row) = 3 /\
     M_Score (scored row) = 3 /\
     (RFM_Score (scored row) == 3)%Q /\
     Segment row = "Promising") /\
  (Timedelta_max < now - latest ->
   calculate_rfm analysis_date customer_data = Raise OutOfBounds).
Proof.
  intros Hall Hnow Hlatest Hle.
  assert (Hne : customer_data <> []).
  { intros ->. apply elem_of_nil in Hlatest. exact Hlatest. }
  pose proof (customer_group_all _ _ Hall) as Hgroup.
  assert (Hcin : c ∈ map customer_id customer_data).
  { destruct customer_data as [| t rest]; [congruence |].
    simpl. rewrite <- (Hall t (list_elem_of_here _ _)).
    apply list_elem_of_here. }
  split.
  { intros ->. destruct Hnow as [Hin Hmax].
    rewrite Forall_forall in Hle, Hmax.
    pose proof (Hle _ Hin). pose proof (Hmax _ Hlatest). lia. }
  split.
  2: { intros Hout. unfold calculate_rfm.
       rewrite (aggregate_rfm_raises analysis_date customer_data now c latest);
         [reflexivity | exact Hnow | exact Hcin | | | lia];
         rewrite Hgroup; assumption. }
  intros Hfit.
  assert (Hagg : aggregate_rfm analysis_date customer_data
                 = Ok (rfm_metrics analysis_date customer_data)).
  { apply aggregate_rfm_ok_latest. intros now' c' latest' Hnow' Hc' Hin' Hle'.
    assert (c' = c) as ->.
    { apply list_elem_of_fmap in Hc'. destruct Hc' as (t & -> & Ht).
      apply Hall, Ht. }
    rewrite Hgroup in Hin', Hle'.
    assert (now' = now) as ->.
    { pose proof (analysis_date_now _ _ _ Hnow) as H1.
      pose proof (analysis_date_now _ _ _ Hnow') as H2.
      rewrite H1 in H2. injection H2 as <-. reflexivity. }
    assert (latest' = latest) as ->.
    { pose proof (series_max_unique _ _ Hlatest Hle) as H1.
      pose proof (series_max_unique _ _ Hin' Hle') as H2.
      rewrite H1 in H2. injection H2 as <-. reflexivity. }
    exact Hfit. }
  assert (Hkeys : groupby_keys Z.compare (map customer_id customer_data) = [c]).
  { apply NoDup_constant.
    - apply customer_keys_NoDup.
    - destruct customer_data as [| t rest]; [congruence |].
      intros Hnil.
      assert (Hin : customer_id t ∈ groupby_keys Z.compare
                      (map customer_id (t :: rest))).
      { apply elem_of_customer_keys. simpl. apply list_elem_of_here. }
      rewrite Hnil in Hin. apply elem_of_nil in Hin. exact Hin.
    - intros x Hx. rewrite elem_of_customer_keys in Hx.
      apply list_elem_of_fmap in Hx. destruct Hx as (t & -> & Ht).
      apply Hall, Ht. }
  destruct (calculate_rfm_ok analysis_date customer_data Hne Hagg)
    as (rows & Hrows & Hmet & Hprops).
  assert (Hlen : length rows = 1%nat).
  { rewrite <- (length_map (fun c => metrics (scored c))), Hmet.
    rewrite <- (length_map rfm_customer_id), rfm_metrics_ids, Hkeys.
    reflexivity. }
  destruct rows as [| row [| ? ?]]; try discriminate Hlen.
  exists row. split; [exact Hrows |].
  assert (Hid : rfm_customer_id (metrics (scored row)) = c).
  { pose proof (rfm_metrics_ids analysis_date customer_data) as Hids.
    rewrite <- Hmet, Hkeys in Hids. simpl in Hids. injection Hids as ->.
    reflexivity. }
  destruct (calculate_rfm_columns _ _ _ Hrows) as (r & f & m & Hs & Hlook).
  destruct (score_columns_form _ _ _ _ Hs) as (Hr & Hf & Hm).
  destruct (Hlook row (list_elem_of_here _ _)) as (i & Hi & Hir & Hif & Him).
  simpl in Hmet. rewrite <- Hmet in *.
  destruct i as [| i]; [| discriminate Hi].
  assert (HR : R_Score (scored row) = 3).
  { destruct (pd_cut_extremes _ [5; 4; 3; 2; 1] r 0%nat _ _ eq_refl
                (proj1 NoDup_score_labels) Hr eq_refl Hir) as (_ & _ & Hc).
    assert (Hl : [5; 4; 3; 2; 1] !! 2%nat = Some (R_Score (scored row))).
    { apply Hc. intros u Hu. apply list_elem_of_singleton in Hu.
      rewrite Hu. reflexivity. }
    injection Hl as <-. reflexivity. }
  assert (HF : F_Score (scored row) = 3).
  { destruct (pd_cut_extremes _ [1; 2; 3; 4; 5] f 0%nat _ _ eq_refl
                (proj2 NoDup_score_labels) Hf eq_refl Hif) as (_ & _ & Hc).
    assert (Hl : [1; 2; 3; 4; 5] !! 2%nat = Some (F_Score (scored row))).
    { apply Hc. intros u Hu. apply list_elem_of_singleton in Hu.
      rewrite Hu. reflexivity. }
    injection Hl as <-. reflexivity. }
  assert (HM : M_Score (scored row) = 3).
  { destruct (pd_cut_extremes _ [1; 2; 3; 4; 5] m 0%nat _ _ eq_refl
                (proj2 NoDup_score_labels) Hm eq_refl Him) as (_ & _ & Hc).
    assert (Hl : [1; 2; 3; 4; 5] !! 2%nat = Some (M_Score (scored row))).
    { apply Hc. intros u Hu. apply list_elem_of_singleton in Hu.
      rewrite Hu. reflexivity. }
    injection Hl as <-. reflexivity. }
  repeat split; try assumption.
  - rewrite (calculate_rfm_rfm_score _ _ _ _ Hrows (list_elem_of_here _ _)).
    rewrite HR, HF, HM. reflexivity.
  - apply Forall_inv in Hprops. destruct Hprops as [_ ->].
    unfold segment_customers. rewrite HR, HF, HM. reflexivity.
Qed.

Lemma single_customer_promising_witness :
  (exists row,
     calculate_rfm None old_customer = Ok [row] /\ Segment row = "Promising") /\
  calculate_rfm (Some (2 ^ 62 + 2 * ns_per_day)) old_customer
  = Raise OutOfBounds.
Proof.
  assert (Hall : forall t, t ∈ old_customer -> customer_id t = 7).
  { intros t Ht. unfold old_customer in Ht.
    rewrite !elem_of_cons, elem_of_nil in Ht.
    destruct Ht as [-> | [-> | []]]; reflexivity. }
  assert (Hin : (- 2 ^ 62 + ns_per_day) ∈ map transaction_date old_customer).
  { apply list_elem_of_further, list_elem_of_here. }
  assert (Hle : Forall (fun d => d <= - 2 ^ 62 + ns_per_day)
                       (map transaction_date old_customer)).
  { repeat constructor; vm_compute; discriminate. }
  split.
  - destruct (single_customer_promising None old_customer 7
                (- 2 ^ 62 + ns_per_day) (- 2 ^ 62 + ns_per_day)
                Hall (conj Hin Hle) Hin Hle)
      as (_ & (row & H & _ & _ & _ & _ & _ & Hseg) & _).
    + vm_compute. split; discriminate.
    + exists row. split; assumption.
  - apply (single_customer_promising (Some (2 ^ 62 + 2 * ns_per_day))
             old_customer 7 (2 ^ 62 + 2 * ns_per_day)
             (- 2 ^ 62 + ns_per_day) Hall eq_refl Hin Hle).
    vm_compute. reflexivity.
Defined.

(** ** Rows and summary of a scored population *)

(** X10: every row of a successful [calculate_rfm] has its three scores in
    1..5, an RFM score equal to their mean and therefore between 1 and 5, and
    a segment that is the classifier's label for the scores: one of the
    eleven labels, and never [Cannot Lose Them]. *)
Theorem calculate_rfm_row_invariants (analysis_date : option Z)
    (customer_data : list Transaction) (rfm_data : list SegmentedCustomer)
    (row : SegmentedCustomer) :
  calculate_rfm analysis_date customer_data = Ok rfm_data ->
  row ∈ rfm_data ->
  in_score_range (scored row) /\
  RFM_Score (scored row) =
    (inject_Z (R_Score (scored row) + F_Score (scored row)
               + M_Score (scored row)) / 3)%Q /\
  (1 <= RFM_Score (scored row) <= 5)%Q /\
  Segment row = segment_customers (scored row) /\
  In (Segment row) segment_labels /\
  Segment row <> "Cannot Lose Them".
Proof.
  intros H Hrow.
  destruct (calculate_rfm_inv _ _ _ H) as (_ & _ & Hall).
  rewrite Forall_forall in Hall. destruct (Hall row Hrow) as [Hrange Hseg].
  pose proof (calculate_rfm_rfm_score _ _ _ _ H Hrow) as Hmean.
  split; [exact Hrange |]. split; [exact Hmean |].
  split; [| split; [exact Hseg | split]].
  - rewrite Hmean. destruct Hrange as (Hr & Hf & Hm). unfold is_score in *.
    split.
    + apply Qle_shift_div_l; [reflexivity |].
      change (1 * 3)%Q with (inject_Z 3). rewrite <- Zle_Qle. lia.
    + apply Qle_shift_div_r; [reflexivity |].
      change (5 * 3)%Q with (inject_Z 15). rewrite <- Zle_Qle. lia.
  - rewrite Hseg. apply segment_customers_in_labels.
  - rewrite Hseg. apply rule9_shadowed.
Qed.

Lemma calculate_rfm_row_invariants_witness :
  exists rfm_data row,
    calculate_rfm None four_customers = Ok rfm_data /\
    rfm_data !! 0%nat = Some row /\
    (1 <= RFM_Score (scored row) <= 5)%Q.
Proof.
  eexists _, _.
  split; [vm_compute; reflexivity |].
  match goal with |- ?rows !! _ = _ /\ _ => pose (rfm_data := rows) end.
  assert (H : calculate_rfm None four_customers = Ok rfm_data)
    by (vm_compute; reflexivity).
  split; [reflexivity |].
  refine (proj1 (proj2 (proj2
            (calculate_rfm_row_invariants None four_customers rfm_data _ H _)))).
  eapply (list_elem_of_lookup_2 _ 0%nat). reflexivity.
Defined.

(** The ten labels that the classifier returns. *)
Lemma segment_in_ten_labels (row : ScoredCustomer) :
  segment_customers row ∈
    [ "Champions"; "Loyal Customers"; "Potential Loyalists"; "New Customers";
      "Promising"; "Need Attention"; "About to Sleep"; "At Risk";
      "Hibernating"; "Lost" ].
Proof.
  pose proof (segment_customers_in_labels row) as Hin.
  pose proof (rule9_shadowed row) as Hne.
  unfold segment_labels in Hin. simpl in Hin.
  rewrite !elem_of_cons, elem_of_nil. intuition congruence.
Qed.

(** The labels of the segment summary: the distinct labels of the table. *)
Lemma analyze_segments_labels (rfm_data : list SegmentedCustomer) :
  exists summary,
    analyze_segments (Some rfm_data) = Some summary /\
    NoDup (map summary_Segment summary) /\
    (forall label, label ∈ map summary_Segment summary <->
                   label ∈ map Segment rfm_data).
Proof.
  eexists. split; [reflexivity |].
  set (keys := groupby_keys String.compare (map Segment rfm_data)).
  pose proof (sort_values_desc_Permutation summary_Monetary
                (map (summarize rfm_data) keys)) as Hperm.
  assert (Hlabels : map summary_Segment (map (summarize rfm_data) keys) = keys).
  { rewrite map_map. simpl. apply map_id. }
  split.
  - rewrite (Permutation_map summary_Segment Hperm), Hlabels.
    apply segment_keys_NoDup.
  - intros label. rewrite (Permutation_map summary_Segment Hperm), Hlabels.
    apply elem_of_segment_keys.
Qed.

(** X11: the segment summary of a scored population has at most ten rows,
    at most one row per customer, no row for [Cannot Lose Them], and every
    row counts at least one customer. *)
Theorem analyze_segments_of_calculate_rfm (analysis_date : option Z)
    (customer_data : list Transaction) (rfm_data : list SegmentedCustomer) :
  calculate_rfm analysis_date customer_data = Ok rfm_data ->
  exists summary,
    analyze_segments (Some rfm_data) = Some summary /\
    (1 <= length summary <= 10)%nat /\
    (length summary <= length rfm_data)%nat /\
    (forall row, row ∈ summary ->
       summary_Segment row <> "Cannot Lose Them" /\
       1 <= summary_customer_id row).
Proof.
  intros H.
  destruct (calculate_rfm_inv _ _ _ H) as (Hne & Hmet & Hall).
  destruct (analyze_segments_labels rfm_data)
    as (summary & Hsum & Hnodup & Hlabels).
  exists summary. split; [exact Hsum |].
  assert (Hrows : rfm_data <> []).
  { intros ->. simpl in Hmet. symmetry in Hmet.
    exact (rfm_metrics_nonempty analysis_date _ Hne Hmet). }
  assert (Hseg : forall c, c ∈ rfm_data -> Segment c = segment_customers (scored c)).
  { rewrite Forall_forall in Hall. intros c Hc. apply (Hall c Hc). }
  rewrite <- (length_map summary_Segment summary).
  split; [split |]; [| | split].
  - destruct rfm_data as [| c rest]; [congruence |].
    assert (Hin : Segment c ∈ map summary_Segment summary).
    { apply Hlabels. simpl. apply list_elem_of_here. }
    destruct (map summary_Segment summary); [| simpl; lia].
    apply elem_of_nil in Hin. contradiction.
  - change 10%nat with (length
      [ "Champions"; "Loyal Customers"; "Potential Loyalists"; "New Customers";
        "Promising"; "Need Attention"; "About to Sleep"; "At Risk";
        "Hibernating"; "Lost" ]).
    apply submseteq_length, NoDup_submseteq; [exact Hnodup |].
    intros label Hl. apply Hlabels in Hl.
    apply list_elem_of_fmap in Hl. destruct Hl as (c & -> & Hc).
    rewrite (Hseg c Hc). apply segment_in_ten_labels.
  - rewrite <- (length_map Segment rfm_data).
    apply submseteq_length, NoDup_submseteq; [exact Hnodup |].
    intros label Hl. apply Hlabels. exact Hl.
  - intros row Hrow.
    assert (Hl : summary_Segment row ∈ map Segment rfm_data).
    { apply Hlabels. apply list_elem_of_fmap_2. exact Hrow. }
    apply list_elem_of_fmap in Hl. destruct Hl as (c & Hc1 & Hc).
    split.
    + rewrite Hc1, (Hseg c Hc). apply rule9_shadowed.
    + unfold analyze_segments in Hsum. injection Hsum as <-.
      rewrite sort_values_desc_Permutation in Hrow.
      apply list_elem_of_fmap in Hrow. destruct Hrow as (label & -> & _).
      simpl in *. subst label.
      assert (Hmem : c ∈ segment_members rfm_data (Segment c)).
      { unfold segment_members. apply list_elem_of_filter. auto. }
      destruct (segment_members rfm_data (Segment c)); [| simpl; lia].
      apply elem_of_nil in Hmem. contradiction.
Qed.

Lemma analyze_segments_of_calculate_rfm_witness :
  exists rfm_data,
    calculate_rfm None five_customers = Ok rfm_data /\
    exists summary,
      analyze_segments (Some rfm_data) = Some summary /\
      (1 <= length summary <= 10)%nat.
Proof.
  eexists. split; [vm_compute; reflexivity |].
  match goal with
  | |- exists _, analyze_segments (Some ?rows) = _ /\ _ =>
      pose (rfm_data := rows)
  end.
  assert (H : calculate_rfm None five_customers = Ok rfm_data)
    by (vm_compute; reflexivity).
  destruct (analyze_segments_of_calculate_rfm None five_customers rfm_data H)
    as (summary & Hs & Hlen & _).
  exists summary. split; [exact Hs | exact Hlen].
Defined.

(** ** Segment aggregator: counts and percentages *)

Lemma series_sum_Permutation (x y : list Q) :
  x ≡ₚ y -> (series_sum x == series_sum y)%Q.
Proof.
  induction 1 as [| a x y _ IH | a b x | x y z _ IH1 _ IH2]; simpl.
  - reflexivity.
  - rewrite IH. reflexivity.
  - ring.
  - rewrite IH1. exact IH2.
Qed.

Lemma Z_sum_Permutation (x y : list Z) : x ≡ₚ y -> Z_sum x = Z_sum y.
Proof.
  induction 1 as [| a x y _ IH | a b x | x y z _ IH1 _ IH2]; simpl; lia.
Qed.

Lemma series_sum_round2 {K : Type} (g : K -> Q) (keys : list K) :
  (series_sum (map g keys) - inject_Z (Z.of_nat (length keys)) * (1 # 200)
   <= series_sum (map (fun k => round2 (g k)) keys))%Q /\
  (series_sum (map (fun k => round2 (g k)) keys)
   <= series_sum (map g keys)
      + inject_Z (Z.of_nat (length keys)) * (1 # 200))%Q.
Proof.
  induction keys as [| k keys IH]; cbn [map series_sum length].
  - change (inject_Z (Z.of_nat 0)) with 0%Q. split; lra.
  - destruct IH as [IH1 IH2]. destruct (round2_error (g k)) as [H1 H2].
    rewrite Nat2Z.inj_succ, <- Z.add_1_r, inject_Z_plus.
    change (inject_Z 1) with 1%Q. split; lra.
Qed.

Lemma series_sum_scaled {K : Type} (c : K -> Z) (n : Q) (keys : list K) :
  ~ (n == 0)%Q ->
  (series_sum (map (fun k => inject_Z (c k) / n * 100) keys)
   == inject_Z (Z_sum (map c keys)) / n * 100)%Q.
Proof.
  intros Hn. induction keys as [| k keys IH]; cbn [map series_sum Z_sum fold_right].
  - change (inject_Z 0) with 0%Q. field. exact Hn.
  - unfold Z_sum in IH. rewrite IH, inject_Z_plus. field. exact Hn.
Qed.

(** X12: in the segment summary of a non-empty table the counts add up to
    the number of customers, every percentage lies between 0 and 100, and
    the percentages add up to 100 up to 0.005 per row of the summary. *)
Theorem segment_summary_totals (rfm_data : list SegmentedCustomer) :
  rfm_data <> [] ->
  exists summary,
    analyze_segments (Some rfm_data) = Some summary /\
    Z_sum (map summary_customer_id summary) = Z.of_nat (length rfm_data) /\
    Forall (fun row => 0 <= Percentage row <= 100)%Q summary /\
    (100 - inject_Z (Z.of_nat (length summary)) * (1 # 200)
     <= series_sum (map Percentage summary))%Q /\
    (series_sum (map Percentage summary)
     <= 100 + inject_Z (Z.of_nat (length summary)) * (1 # 200))%Q.
Proof.
  intros Hne. eexists. split; [reflexivity |].
  set (keys := groupby_keys String.compare (map Segment rfm_data)).
  pose proof (sort_values_desc_Permutation summary_Monetary
                (map (summarize rfm_data) keys)) as Hperm.
  set (n := inject_Z (Z.of_nat (length rfm_data))).
  assert (Hn : (0 < n)%Q).
  { unfold n. change 0%Q with (inject_Z 0). rewrite <- Zlt_Qlt.
    destruct rfm_data; [congruence | simpl; lia]. }
  set (count := fun label =>
                  Z.of_nat (length (segment_members rfm_data label))).
  assert (Hcounts : Z_sum (map count keys) = Z.of_nat (length rfm_data)).
  { unfold count, segment_members. apply (group_sizes_sum Segment).
    - apply segment_keys_NoDup.
    - intros c Hc. apply elem_of_segment_keys.
      apply list_elem_of_fmap_2. exact Hc. }
  assert (Hpct : map Percentage (map (summarize rfm_data) keys)
                 = map (fun k => round2 (inject_Z (count k) / n * 100)) keys).
  { rewrite map_map. reflexivity. }
  assert (Hlen : length (sort_values_desc summary_Monetary
                           (map (summarize rfm_data) keys)) = length keys).
  { rewrite Hperm, length_map. reflexivity. }
  split; [| split].
  - rewrite (Z_sum_Permutation _ _ (fmap_Permutation _ _ _ Hperm)).
    rewrite map_map. exact Hcounts.
  - rewrite Hperm. apply Forall_fmap, Forall_forall. intros label _.
    unfold compose. simpl. fold n. fold (count label).
    assert (Hc0 : 0 <= count label) by (unfold count; lia).
    assert (Hcn : count label <= Z.of_nat (length rfm_data)).
    { unfold count, segment_members. apply inj_le, length_filter. }
    assert (Hq0 : (0 <= inject_Z (count label) / n * 100)%Q).
    { apply Qmult_le_0_compat; [| discriminate].
      apply Qle_shift_div_l; [exact Hn |]. rewrite Qmult_0_l.
      change 0%Q with (inject_Z 0). rewrite <- Zle_Qle. exact Hc0. }
    assert (Hq1 : (inject_Z (count label) / n * 100 <= 100)%Q).
    { assert (Hle : (inject_Z (count label) / n <= 1)%Q).
      { apply Qle_shift_div_r; [exact Hn |]. rewrite Qmult_1_l.
        unfold n. rewrite <- Zle_Qle. exact Hcn. }
      lra. }
    split.
    + apply round2_nonneg. exact Hq0.
    + unfold round2. apply Qle_shift_div_r; [reflexivity |].
      change (100 * 100)%Q with (inject_Z 10000). rewrite <- Zle_Qle.
      apply rint_le_int. change (inject_Z 10000) with (100 * 100)%Q. lra.
  - rewrite Hlen.
    assert (Hsum : (series_sum (map Percentage
                      (sort_values_desc summary_Monetary
                         (map (summarize rfm_data) keys)))
                    == series_sum (map (fun k =>
                         round2 (inject_Z (count k) / n * 100)) keys))%Q).
    { rewrite <- Hpct. apply series_sum_Permutation, Permutation_map, Hperm. }
    rewrite Hsum.
    destruct (series_sum_round2 (fun k => (inject_Z (count k) / n * 100)%Q) keys)
      as [H1 H2].
    rewrite series_sum_scaled in H1, H2 by lra.
    rewrite Hcounts in H1, H2. fold n in H1, H2.
    assert (Hone : (n / n * 100 == 100)%Q) by (field; lra).
    rewrite Hone in H1, H2. split; assumption.
Qed.

Lemma segment_summary_totals_witness :
  exists summary,
    analyze_segments
      (Some [mkSegmented (score_row 5 5 5) "Champions";
             mkSegmented (score_row 1 1 1) "Lost";
             mkSegmented (score_row 1 1 2) "Lost"]) = Some summary /\
    Z_sum (map summary_customer_id summary) = 3.
Proof.
  destruct (segment_summary_totals
              [mkSegmented (score_row 5 5 5) "Champions";
               mkSegmented (score_row 1 1 1) "Lost";
               mkSegmented (score_row 1 1 2) "Lost"])
    as (summary & Hs & Hc & _).
  - discriminate.
  - exists summary. split; [exact Hs | exact Hc].
Defined.

(** ** Cluster selector: what a returned count satisfies, and failures *)

Lemma lookup_py_range (start stop : Z) (j : nat) (k : Z) :
  py_range start stop !! j = Some k -> k = start + Z.of_nat j.
Proof.
  unfold py_range. rewrite list_lookup_fmap. intros H.
  destruct (seq 0 (Z.to_nat (stop - start)) !! j) as [i |] eqn:E;
    [| discriminate H].
  apply lookup_seq in E. destruct E as [-> _]. simpl in H.
  injection H as <-. reflexivity.
Qed.

Lemma map_seq_from {A : Type} (f : nat -> A) (n len : nat) :
  map f (seq n len) = map (fun i => f (n + i)%nat) (seq 0 len).
Proof.
  revert n. induction len as [| len IH]; intros n; simpl; [reflexivity |].
  rewrite Nat.add_0_r. f_equal.
  rewrite (IH (S n)), <- seq_shift, map_map.
  apply map_ext. intros i. f_equal. lia.
Qed.

Lemma py_range_split (start stop k : Z) :
  start <= k < stop ->
  py_range start stop = py_range start k ++ k :: py_range (k + 1) stop.
Proof.
  intros Hk. unfold py_range.
  replace (Z.to_nat (stop - start))
    with (Z.to_nat (k - start) + S (Z.to_nat (stop - (k + 1))))%nat by lia.
  rewrite seq_app, map_app. f_equal.
  rewrite map_seq_from. simpl. f_equal; [lia |].
  rewrite <- seq_shift, map_map. apply map_ext. intros i. lia.
Qed.

(** Before the first maximum every value is strictly smaller. *)
Lemma argmax_from_first (rest pre : list Q) (best : Q) (best_i : nat) :
  pre !! best_i = Some best ->
  (forall j v, (j < best_i)%nat -> pre !! j = Some v -> (v < best)%Q) ->
  Forall (fun v => v <= best)%Q pre ->
  forall j v top,
    (j < argmax_from best best_i (length pre) rest)%nat ->
    (pre ++ rest) !! j = Some v ->
    (pre ++ rest) !! argmax_from best best_i (length pre) rest = Some top ->
    (v < top)%Q.
Proof.
  revert pre best best_i.
  induction rest as [| v0 rest IH]; intros pre best best_i Hbest Hfirst Hall
    j v top Hj Hv Htop; simpl in *.
  - rewrite app_nil_r in *. rewrite Hbest in Htop. injection Htop as <-.
    eapply Hfirst; eassumption.
  - replace (pre ++ v0 :: rest) with ((pre ++ [v0]) ++ rest) in *
      by (rewrite <- app_assoc; reflexivity).
    replace (S (length pre)) with (length (pre ++ [v0])) in *
      by (rewrite length_app; simpl; lia).
    pose proof (lookup_lt_Some _ _ _ Hbest) as Hlt.
    destruct (Qltb best v0) eqn:E.
    + apply Qltb_lt in E.
      eapply (IH (pre ++ [v0]) v0 (length pre)); try eassumption.
      * rewrite lookup_app_r by lia.
        replace (length pre - length pre)%nat with 0%nat by lia. reflexivity.
      * intros j' v' Hj' Hv'. rewrite lookup_app_l in Hv' by exact Hj'.
        rewrite Forall_forall in Hall.
        assert (v' <= best)%Q
          by (apply Hall; eapply list_elem_of_lookup_2; exact Hv').
        lra.
      * apply Forall_app. split.
        -- eapply Forall_impl; [exact Hall |]. intros w Hw. cbv beta in *. lra.
        -- constructor; [apply Qle_refl | constructor].
    + apply Qltb_ge in E.
      eapply (IH (pre ++ [v0]) best best_i); try eassumption.
      * apply lookup_app_l_Some. exact Hbest.
      * intros j' v' Hj' Hv'. rewrite lookup_app_l in Hv' by lia.
        eapply Hfirst; eassumption.
      * apply Forall_app. split; [exact Hall |].
        constructor; [exact E | constructor].
Qed.

Lemma np_argmax_inv (a : list Q) (i : nat) :
  np_argmax a = Ok i ->
  exists top,
    a !! i = Some top /\
    Forall (fun v => v <= top)%Q a /\
    (forall j v, (j < i)%nat -> a !! j = Some v -> (v < top)%Q).
Proof.
  destruct a as [| v0 rest]; [discriminate |]. simpl. intros [= <-].
  destruct (argmax_from_spec rest [v0] v0 0%nat) as (top & Htop & Hall).
  - reflexivity.
  - constructor; [apply Qle_refl | constructor].
  - exists top. split; [exact Htop |]. split; [exact Hall |].
    intros j v Hj Hv.
    eapply (argmax_from_first rest [v0] v0 0%nat); try eassumption.
    + reflexivity.
    + intros j' v' Hj'. lia.
    + constructor; [apply Qle_refl | constructor].
Qed.

Section ClusterSelectorReturns.
Variable KMeans_fit_predict : Z -> list (list Q) -> result (list Z * Q).
Variable silhouette_score : list (list Q) -> list Z -> result Q.

(** A loop that finished has scored every candidate, in order. *)
Lemma evaluate_candidates_inv (data : list (list Q)) (k_range : list Z)
    (inertias silhouette_scores : list Q) :
  evaluate_candidates KMeans_fit_predict silhouette_score data k_range
  = Ok (inertias, silhouette_scores) ->
  Forall2 (fun k s =>
             candidate_silhouette KMeans_fit_predict silhouette_score data k
             = Ok s)
          k_range silhouette_scores.
Proof.
  revert inertias silhouette_scores.
  induction k_range as [| k rest IH]; intros inertias scores; simpl.
  - intros [= <- <-]. constructor.
  - destruct (evaluate_candidate _ _ data k) as [[inertia s] |] eqn:Ek;
      [| discriminate].
    rewrite result_bind_Ok.
    destruct (evaluate_candidates _ _ data rest) as [[inertias' scores'] |];
      [| discriminate].
    rewrite result_bind_Ok. intros [= <- <-].
    constructor; [| apply (IH inertias'); reflexivity].
    unfold candidate_silhouette. rewrite Ek. reflexivity.
Qed.

(** The loop stops at the first candidate whose clustering or scoring
    raises, with that exception. *)
Lemma evaluate_candidates_raise (data : list (list Q)) (done : list Z)
    (k : Z) (todo : list Z) (e : exn) :
  Forall (fun k' =>
            exists r,
              evaluate_candidate KMeans_fit_predict silhouette_score data k'
              = Ok r) done ->
  evaluate_candidate KMeans_fit_predict silhouette_score data k = Raise e ->
  evaluate_candidates KMeans_fit_predict silhouette_score data
    (done ++ k :: todo) = Raise e.
Proof.
  intros Hdone Hk. induction Hdone as [| k' done ([inertia s] & Hk') _ IH]; simpl.
  - rewrite Hk. reflexivity.
  - rewrite Hk', result_bind_Ok, IH. reflexivity.
Qed.

(** The returned count in terms of the entries of [silhouette_scores]. *)
Lemma find_optimal_clusters_returns_scores (data : list (list Q))
    (max_clusters optimal_k : Z) :
  _find_optimal_clusters KMeans_fit_predict silhouette_score data max_clusters
  = Ok optimal_k ->
  2 <= optimal_k <= Z.min max_clusters (Z.of_nat (length data) - 1) /\
  exists best,
    candidate_silhouette KMeans_fit_predict silhouette_score data optimal_k
    = Ok best /\
    forall k, 2 <= k <= Z.min max_clusters (Z.of_nat (length data) - 1) ->
      exists s,
        candidate_silhouette KMeans_fit_predict silhouette_score data k
        = Ok s /\
        (s <= best)%Q /\ (k < optimal_k -> (s < best)%Q).
Proof.
  unfold _find_optimal_clusters.
  set (k_range := py_range 2 (Z.min (max_clusters + 1) (Z.of_nat (length data)))).
  destruct (evaluate_candidates _ _ data k_range) as [[inertias scores] |] eqn:Heval;
    [| discriminate].
  rewrite result_bind_Ok.
  destruct (np_argmax scores) as [i |] eqn:Hi; [| discriminate].
  rewrite result_bind_Ok.
  destruct (k_range !! i) as [k_i |] eqn:Hk; [| discriminate].
  intros [= ->].
  apply evaluate_candidates_inv in Heval.
  destruct (np_argmax_inv scores i Hi) as (best & Hbest & Hmax & Hfirst).
  assert (Hrange : forall k, k ∈ k_range <->
            2 <= k <= Z.min max_clusters (Z.of_nat (length data) - 1)).
  { intros k. unfold k_range. rewrite elem_of_py_range. lia. }
  split; [apply Hrange; eapply list_elem_of_lookup_2; exact Hk |].
  exists best. split.
  - destruct (Forall2_lookup_l _ _ _ _ _ Heval Hk) as (s & Hs & Hks).
    rewrite Hbest in Hs. injection Hs as <-. exact Hks.
  - intros k Hkr. apply Hrange in Hkr.
    apply list_elem_of_lookup_1 in Hkr. destruct Hkr as (j & Hj).
    destruct (Forall2_lookup_l _ _ _ _ _ Heval Hj) as (s & Hs & Hks).
    exists s. split; [exact Hks |]. split.
    + rewrite Forall_forall in Hmax. apply Hmax.
      eapply list_elem_of_lookup_2. exact Hs.
    + intros Hlt. apply (Hfirst j s); [| exact Hs].
      apply lookup_py_range in Hj, Hk. lia.
Qed.

(** X13: whenever the selector returns a count, for any [max_clusters],
    the count lies in 2..min(max_clusters, n - 1); [KMeans] returned an
    assignment for every candidate of that range and [silhouette_score]
    returned a score for that assignment; the score of the assignment of the
    returned count is at least the score of the assignment of every
    candidate, and strictly greater than that of every smaller candidate (of
    several best candidates the smallest is returned). *)
Theorem find_optimal_clusters_returns (data : list (list Q))
    (max_clusters optimal_k : Z) :
  _find_optimal_clusters KMeans_fit_predict silhouette_score data max_clusters
  = Ok optimal_k ->
  2 <= optimal_k <= Z.min max_clusters (Z.of_nat (length data) - 1) /\
  exists cluster_labels inertia best,
    KMeans_fit_predict optimal_k data = Ok (cluster_labels, inertia) /\
    silhouette_score data cluster_labels = Ok best /\
    forall k, 2 <= k <= Z.min max_clusters (Z.of_nat (length data) - 1) ->
      exists labels_k inertia_k s,
        KMeans_fit_predict k data = Ok (labels_k, inertia_k) /\
        silhouette_score data labels_k = Ok s /\
        (s <= best)%Q /\ (k < optimal_k -> (s < best)%Q).
Proof.
  intros H.
  destruct (find_optimal_clusters_returns_scores data max_clusters optimal_k H)
    as (Hrange & best & Hbest & Hall).
  split; [exact Hrange |].
  apply candidate_silhouette_calls in Hbest.
  destruct Hbest as (labels & inertia & Hl & Hs).
  exists labels, inertia, best. split; [exact Hl |]. split; [exact Hs |].
  intros k Hk. destruct (Hall k Hk) as (s & Hks & Hle & Hlt).
  apply candidate_silhouette_calls in Hks.
  destruct Hks as (labels_k & inertia_k & Hlk & Hsk).
  exists labels_k, inertia_k, s. auto.
Qed.

(** X14: when [KMeans] raises on a candidate of the range, or returns an
    assignment on which [silhouette_score] raises, and for every smaller
    candidate [KMeans] returned an assignment that [silhouette_score]
    scored, the selector raises the same exception. *)
Theorem find_optimal_clusters_propagates (data : list (list Q))
    (max_clusters k : Z) (e : exn) :
  2 <= k <= Z.min max_clusters (Z.of_nat (length data) - 1) ->
  (forall k', 2 <= k' < k ->
     exists cluster_labels inertia s,
       KMeans_fit_predict k' data = Ok (cluster_labels, inertia) /\
       silhouette_score data cluster_labels = Ok s) ->
  (KMeans_fit_predict k data = Raise e \/
   exists cluster_labels inertia,
     KMeans_fit_predict k data = Ok (cluster_labels, inertia) /\
     silhouette_score data cluster_labels = Raise e) ->
  _find_optimal_clusters KMeans_fit_predict silhouette_score data max_clusters
  = Raise e.
Proof.
  intros Hk Hdone He. unfold _find_optimal_clusters.
  rewrite (py_range_split 2 _ k) by lia.
  rewrite (evaluate_candidates_raise data (py_range 2 k) k _ e); [reflexivity | |].
  - apply Forall_forall. intros k' Hk'. apply elem_of_py_range in Hk'.
    destruct (Hdone k' Hk') as (labels & inertia & s & Hl & Hs).
    exists (inertia, s). apply evaluate_candidate_Ok. exists labels. auto.
  - apply evaluate_candidate_Raise. exact He.
Qed.

Lemma find_optimal_clusters_no_candidates (data : list (list Q))
    (max_clusters : Z) :
  Z.min (max_clusters + 1) (Z.of_nat (length data)) <= 2 ->
  _find_optimal_clusters KMeans_fit_predict silhouette_score data max_clusters
  = Raise ValueError.
Proof.
  intros H. unfold _find_optimal_clusters.
  rewrite py_range_empty by exact H. reflexivity.
Qed.

(** X15: for any [max_clusters], the selector raises [ValueError] without
    clustering anything when [max_clusters] is below 2 or the data has fewer
    than three rows. *)
Theorem find_optimal_clusters_empty_range (data : list (list Q))
    (max_clusters : Z) :
  max_clusters < 2 \/ (length data < 3)%nat ->
  _find_optimal_clusters KMeans_fit_predict silhouette_score data max_clusters
  = Raise ValueError.
Proof.
  intros H. apply find_optimal_clusters_no_candidates. lia.
Qed.
End ClusterSelectorReturns.

Lemma find_optimal_clusters_returns_witness :
  _find_optimal_clusters round_robin_kmeans three_clusters_score five_points 10
  = Ok 3 /\
  exists cluster_labels inertia best,
    round_robin_kmeans 3 five_points = Ok (cluster_labels, inertia) /\
    three_clusters_score five_points cluster_labels = Ok best /\
    (forall s, three_clusters_score five_points [0; 1; 0; 1; 0] = Ok s ->
               (s < best)%Q).
Proof.
  assert (H : _find_optimal_clusters round_robin_kmeans three_clusters_score
                five_points 10 = Ok 3) by (vm_compute; reflexivity).
  split; [exact H |].
  destruct (find_optimal_clusters_returns round_robin_kmeans
              three_clusters_score five_points 10 3 H)
    as (_ & cluster_labels & inertia & best & Hl & Hs & Hall).
  exists cluster_labels, inertia, best.
  split; [exact Hl |]. split; [exact Hs |].
  intros s Hscore.
  destruct (Hall 2) as (labels_2 & inertia_2 & s_2 & Hl2 & Hs2 & _ & Hlt).
  - vm_compute. split; discriminate.
  - vm_compute in Hl2. injection Hl2 as <- <-. rewrite Hs2 in Hscore. injection Hscore as <-.
    apply Hlt. reflexivity.
Defined.

Lemma find_optimal_clusters_propagates_witness :
  _find_optimal_clusters kmeans_failing_at_3 largest_label_score four_points 10
  = Raise ValueError /\
  _find_optimal_clusters round_robin_kmeans score_failing_above_two
    four_points 10
  = Raise ValueError.
Proof.
  split.
  - apply (find_optimal_clusters_propagates kmeans_failing_at_3
             largest_label_score four_points 10 3 ValueError).
    + simpl. lia.
    + intros k' Hk'. assert (k' = 2) as -> by lia.
      eexists _, _, _. split; reflexivity.
    + left. reflexivity.
  - apply (find_optimal_clusters_propagates round_robin_kmeans
             score_failing_above_two four_points 10 3 ValueError).
    + simpl. lia.
    + intros k' Hk'. assert (k' = 2) as -> by lia.
      eexists _, _, _. split; reflexivity.
    + right. eexists _, _. split; reflexivity.
Defined.

Lemma find_optimal_clusters_empty_range_witness :
  _find_optimal_clusters round_robin_kmeans largest_label_score four_points 1
  = Raise ValueError.
Proof.
  apply (find_optimal_clusters_empty_range round_robin_kmeans
           largest_label_score four_points 1).
  left. lia.
Defined.

(** ** K-means clustering of the scored table *)








Lemma cluster_keys_sorted (cluster_labels : list Z) :
  StronglySorted Z.lt (groupby_keys Z.compare cluster_labels).
Proof.
  apply key_lt_Z_sorted, groupby_keys_sorted.
  - intros x y. apply Z.compare_eq.
  - intros x y. apply Z.compare_antisym.
  - apply Z_compare_trans.
Qed.

Lemma cluster_members_length (rfm_data : list SegmentedCustomer)
    (cluster_labels : list Z) (k : Z) :
  length (cluster_members rfm_data cluster_labels k)
  = length (filter (fun row => snd row = k) (zip rfm_data cluster_labels)).
Proof. unfold cluster_members. apply length_map. Qed.

(** With one label per row, the groups of the labels that occur are not
    empty and their sizes add up to the number of rows. *)
Lemma cluster_groups (rfm_data : list SegmentedCustomer)
    (cluster_labels : list Z) :
  length cluster_labels = length rfm_data ->
  (forall k, k ∈ cluster_labels ->
     cluster_members rfm_data cluster_labels k <> []) /\
  Z_sum (map (fun k => Z.of_nat (length
                 (cluster_members rfm_data cluster_labels k)))
             (groupby_keys Z.compare cluster_labels))
  = Z.of_nat (length rfm_data).
Proof.
  intros Hlen. split.
  - intros k Hk Hnil.
    apply list_elem_of_lookup_1 in Hk. destruct Hk as (i & Hi).
    destruct (lookup_lt_is_Some_2 rfm_data i) as [c Hc].
    { rewrite <- Hlen. eapply lookup_lt_Some. exact Hi. }
    assert (Hin : (c, k) ∈ filter (fun row => snd row = k)
                              (zip rfm_data cluster_labels)).
    { apply list_elem_of_filter. split; [reflexivity |].
      apply list_elem_of_lookup_2 with i.
      apply lookup_zip_with_Some. exists c, k. auto. }
    apply (f_equal length) in Hnil. rewrite cluster_members_length in Hnil.
    destruct (filter _ _); [| discriminate Hnil].
    apply elem_of_nil in Hin. exact Hin.
  - rewrite (map_ext _ (fun k => Z.of_nat (length
               (filter (fun row => snd row = k) (zip rfm_data cluster_labels)))))
      by (intros k; rewrite cluster_members_length; reflexivity).
    rewrite (group_sizes_sum snd).
    + rewrite length_zip. lia.
    + apply customer_keys_NoDup.
    + intros [c k] Hin. apply elem_of_customer_keys. simpl.
      eapply elem_of_zip_r. exact Hin.
Qed.

Section KMeansClusteringFacts.
Variable fit_transform : list (list Q) -> result (list (list Q)).
Variable KMeans_fit_predict : Z -> list (list Q) -> result (list Z * Q).
Variable silhouette_score : list (list Q) -> list Z -> result Q.

(** X16: with the default arguments (no cluster count), a table of fewer
    than three customers makes [perform_kmeans_clustering] raise
    [ValueError], when the scaler returns one row per customer; the frame is
    left as it was, without a column [Cluster]. *)
Theorem perform_kmeans_clustering_small_population (frame : RfmFrame)
    (scaled_features : list (list Q)) :
  (length (frame_rows frame) < 3)%nat ->
  fit_transform (clustering_data (frame_rows frame)) = Ok scaled_features ->
  length scaled_features = length (frame_rows frame) ->
  perform_kmeans_clustering fit_transform KMeans_fit_predict silhouette_score
    None (Some frame)
  = (Some frame, Some (Raise ValueError)).
Proof.
  intros Hn Hfit Hlen. unfold perform_kmeans_clustering, cluster_frame.
  rewrite Hfit.
  rewrite (find_optimal_clusters_no_candidates KMeans_fit_predict
             silhouette_score scaled_features 10) by lia.
  reflexivity.
Qed.

(** A call that returned a summary assigned one label per customer and
    summarised the groups of the labels. *)
Lemma perform_kmeans_clustering_inv (n_clusters : option Z)
    (frame frame' : RfmFrame) (cluster_summary : list ClusterSummary)
    (silhouette_avg : Q) :
  perform_kmeans_clustering fit_transform KMeans_fit_predict silhouette_score
    n_clusters (Some frame)
  = (Some frame', Some (Ok (cluster_summary, silhouette_avg))) ->
  exists cluster_labels,
    frame' = mkFrame (frame_rows frame) (Some cluster_labels) /\
    length cluster_labels = length (frame_rows frame) /\
    cluster_summary = map (summarize_cluster (frame_rows frame) cluster_labels)
                          (groupby_keys Z.compare cluster_labels).
Proof.
  unfold perform_kmeans_clustering, cluster_frame.
  destruct (fit_transform _) as [scaled |]; [| discriminate].
  destruct (match n_clusters with
            | Some k => Ok k
            | None => _find_optimal_clusters _ _ scaled 10
            end) as [k |]; [| discriminate].
  destruct (KMeans_fit_predict k scaled) as [[labels inertia] |]; [| discriminate].
  destruct (length labels =? length (frame_rows frame))%nat eqn:Hlen;
    [| discriminate].
  apply Nat.eqb_eq in Hlen. cbn [negb].
  destruct (silhouette_score scaled labels) as [s |]; [| discriminate].
  rewrite result_bind_Ok. intros [= <- <- <-].
  exists labels. auto.
Qed.

End KMeansClusteringFacts.

Lemma perform_kmeans_clustering_small_population_witness :
  perform_kmeans_clustering identity_scaler round_robin_kmeans
    largest_label_score None
    (Some (mkFrame [mkSegmented (score_row 3 3 3) "Promising"] None))
  = (Some (mkFrame [mkSegmented (score_row 3 3 3) "Promising"] None),
     Some (Raise ValueError)).
Proof.
  eapply (perform_kmeans_clustering_small_population identity_scaler
            round_robin_kmeans largest_label_score
            (mkFrame [mkSegmented (score_row 3 3 3) "Promising"] None)).
  - simpl. lia.
  - reflexivity.
  - reflexivity.
Defined.


Section ClusterSegmentsFacts.
Variable fit_transform : list (list Q) -> result (list (list Q)).
Variable KMeans_fit_predict : Z -> list (list Q) -> result (list Z * Q).
Variable silhouette_score : list (list Q) -> list Z -> result Q.

(** X18: after a clustering that returned a summary, [analyze_segments]
    reports a cluster table with the same clusters, counts and metric means
    as that summary, and its counts add up to the number of customers; on a
    frame without the column [Cluster] it reports no cluster table. *)
Theorem analyze_cluster_segments_after_clustering (n_clusters : option Z)
    (frame frame' : RfmFrame) (cluster_summary : list ClusterSummary)
    (silhouette_avg : Q) :
  perform_kmeans_clustering fit_transform KMeans_fit_predict silhouette_score
    n_clusters (Some frame)
  = (Some frame', Some (Ok (cluster_summary, silhouette_avg))) ->
  analyze_cluster_segments (Some (mkFrame (frame_rows frame) None))
    = Some None /\
  exists cluster_segments,
    analyze_cluster_segments (Some frame') = Some (Some cluster_segments) /\
    map (fun row => (cluster_Cluster row, cluster_customer_id row,
                     cluster_Recency row, cluster_Frequency row,
                     cluster_Monetary row)) cluster_segments
    = map (fun row => (summary_Cluster row, customer_id_count row,
                       Recency_mean row, Frequency_mean row,
                       Monetary_mean row)) cluster_summary /\
    Z_sum (map cluster_customer_id cluster_segments)
      = Z.of_nat (length (frame_rows frame)).
Proof.
  intros H. split; [reflexivity |].
  destruct (perform_kmeans_clustering_inv fit_transform KMeans_fit_predict
              silhouette_score _ _ _ _ _ H) as (labels & -> & Hlen & ->).
  destruct (cluster_groups (frame_rows frame) labels Hlen) as [_ Hsum].
  eexists. split; [reflexivity |]. simpl. split.
  - rewrite !map_map. apply map_ext. intros k'.
    unfold summarize_cluster_segment, summarize_cluster. simpl.
    rewrite !map_map. reflexivity.
  - rewrite map_map. exact Hsum.
Qed.
End ClusterSegmentsFacts.

Lemma analyze_cluster_segments_after_clustering_witness :
  analyze_cluster_segments (Some (mkFrame three_rows None)) = Some None.
Proof.
  assert (H : exists frame' cluster_summary silhouette_avg,
             perform_kmeans_clustering identity_scaler round_robin_kmeans
               largest_label_score (Some 2) (Some (mkFrame three_rows None))
             = (Some frame', Some (Ok (cluster_summary, silhouette_avg)))).
  { eexists _, _, _. vm_compute. reflexivity. }
  destruct H as (frame' & cluster_summary & silhouette_avg & H).
  exact (proj1 (analyze_cluster_segments_after_clustering identity_scaler
                  round_robin_kmeans largest_label_score (Some 2)
                  (mkFrame three_rows None) frame' cluster_summary
                  silhouette_avg H)).
Defined.

(** ** Revenue per segment *)

Lemma insert_asc_Permutation {A : Type} (key : A -> Q) (a : A) (l : list A) :
  insert_asc key a l ≡ₚ a :: l.
Proof.
  induction l as [| b l IH]; simpl; [reflexivity |].
  destruct (Qle_bool (key a) (key b)); [reflexivity |].
  rewrite IH. apply Permutation_swap.
Qed.

Lemma insert_asc_sorted {A : Type} (key : A -> Q) (a : A) (l : list A) :
  StronglySorted (fun x y => key x <= key y)%Q l ->
  StronglySorted (fun x y => key x <= key y)%Q (insert_asc key a l).
Proof.
  induction l as [| b l IH]; simpl; intros Hs.
  - constructor; constructor.
  - inversion Hs as [| ? ? Hl Hall]; subst.
    destruct (Qle_bool (key a) (key b)) eqn:E.
    + apply Qle_bool_iff in E. constructor; [exact Hs |].
      constructor; [exact E |].
      eapply Forall_impl; [exact Hall |]. intros z Hz. cbv beta in *. lra.
    + constructor; [apply IH; exact Hl |].
      rewrite insert_asc_Permutation. constructor; [| exact Hall].
      apply Qlt_le_weak, Qnot_le_lt.
      rewrite <- Qle_bool_iff, E. discriminate.
Qed.

Lemma sort_values_asc_Permutation {A : Type} (key : A -> Q) (rows : list A) :
  sort_values_asc key rows ≡ₚ rows.
Proof.
  induction rows as [| a rows IH]; simpl; [reflexivity |].
  rewrite insert_asc_Permutation, IH. reflexivity.
Qed.

Lemma sort_values_asc_sorted {A : Type} (key : A -> Q) (rows : list A) :
  StronglySorted (fun x y => key x <= key y)%Q (sort_values_asc key rows).
Proof.
  induction rows as [| a rows IH]; simpl; [constructor |].
  apply insert_asc_sorted. exact IH.
Qed.

Lemma Q_sum_indicator_absent {K : Type} `{EqDecision K}
    (g : K -> Q) (v : Q) (kx : K) (keys : list K) :
  kx ∉ keys ->
  (series_sum (map (fun k => (if decide (kx = k) then v else 0) + g k) keys)
   == series_sum (map g keys))%Q.
Proof.
  induction keys as [| k keys IH]; intros Hx; cbn [map series_sum];
    [reflexivity |].
  apply not_elem_of_cons in Hx. destruct Hx as [Hne Hx].
  rewrite (IH Hx). destruct (decide (kx = k)); [contradiction | ring].
Qed.

Lemma Q_sum_indicator_present {K : Type} `{EqDecision K}
    (g : K -> Q) (v : Q) (kx : K) (keys : list K) :
  NoDup keys -> kx ∈ keys ->
  (series_sum (map (fun k => (if decide (kx = k) then v else 0) + g k) keys)
   == v + series_sum (map g keys))%Q.
Proof.
  induction 1 as [| k keys Hk Hnd IH]; intros Hx; cbn [map series_sum].
  - apply elem_of_nil in Hx. contradiction.
  - apply elem_of_cons in Hx. destruct (decide (kx = k)) as [-> | Hne].
    + rewrite (Q_sum_indicator_absent g v k keys Hk). ring.
    + destruct Hx as [Hx | Hx]; [contradiction |]. rewrite (IH Hx). ring.
Qed.

(** For distinct keys that cover the keys of the rows, the totals of the
    groups add up to the total of the column. *)
Lemma group_totals_sum {A K : Type} `{EqDecision K}
    (key : A -> K) (f : A -> Q) (keys : list K) (l : list A) :
  NoDup keys ->
  (forall x, x ∈ l -> key x ∈ keys) ->
  (series_sum (map (fun k =>
      series_sum (map f (filter (fun x => key x = k) l))) keys)
   == series_sum (map f l))%Q.
Proof.
  intros Hnd. induction l as [| x l IH]; intros Hcover.
  - cbn [map series_sum]. clear. induction keys as [| k keys IHk];
      cbn [map series_sum]; [reflexivity |].
    rewrite IHk. rewrite filter_nil. cbn [map series_sum]. ring.
  - assert (Hx : key x ∈ keys) by (apply Hcover, list_elem_of_here).
    assert (IH' := IH (fun y Hy => Hcover y (list_elem_of_further _ _ _ Hy))).
    cbn [map series_sum]. rewrite <- IH'.
    rewrite <- (Q_sum_indicator_present _ (f x) (key x) keys Hnd Hx).
    clear. induction keys as [| k keys IHk]; cbn [map series_sum];
      [reflexivity |].
    rewrite IHk. rewrite filter_cons.
    destruct (decide (key x = k)); cbn [map series_sum]; ring.
Qed.

(** X19: the revenue series of the bar chart has one entry per segment
    label that occurs, each entry is the total monetary value of the
    segment's customers, the entries are in ascending order of that total,
    and they add up to the total monetary value of all customers. *)
Theorem segment_revenue_sorted_total (rfm_data : list SegmentedCustomer) :
  StronglySorted (fun a b => snd a <= snd b)%Q (segment_revenue rfm_data) /\
  NoDup (map fst (segment_revenue rfm_data)) /\
  (forall label, label ∈ map fst (segment_revenue rfm_data) <->
                 label ∈ map Segment rfm_data) /\
  (forall label total, (label, total) ∈ segment_revenue rfm_data ->
     total = series_sum (map (fun c => Monetary (metrics (scored c)))
                           (filter (fun c => Segment c = label) rfm_data))) /\
  (series_sum (map snd (segment_revenue rfm_data))
   == series_sum (map (fun c => Monetary (metrics (scored c))) rfm_data))%Q.
Proof.
  unfold segment_revenue.
  set (keys := groupby_keys String.compare (map Segment rfm_data)).
  set (rows := map (fun label => (label, segment_total_monetary rfm_data label))
                   keys).
  pose proof (sort_values_asc_Permutation snd rows) as Hperm.
  assert (Hfst : map fst rows = keys).
  { unfold rows. rewrite map_map. simpl. apply map_id. }
  split; [apply sort_values_asc_sorted |].
  split; [| split; [| split]].
  - rewrite (Permutation_map fst Hperm), Hfst. apply segment_keys_NoDup.
  - intros label. rewrite (Permutation_map fst Hperm), Hfst.
    apply elem_of_segment_keys.
  - intros label total Hin. rewrite Hperm in Hin.
    apply list_elem_of_fmap in Hin. destruct Hin as (k & [= -> ->] & _).
    reflexivity.
  - rewrite (series_sum_Permutation _ _ (Permutation_map snd Hperm)).
    unfold rows. rewrite map_map. simpl.
    unfold segment_total_monetary, segment_members.
    apply (group_totals_sum Segment).
    + apply segment_keys_NoDup.
    + intros c Hc. apply elem_of_segment_keys.
      apply list_elem_of_fmap_2. exact Hc.
Qed.

(** ** Score binner: customers with equal values *)

Lemma StronglySorted_lookup_lt (l : list Z) (i j : nat) (x y : Z) :
  StronglySorted Z.lt l ->
  l !! i = Some x -> l !! j = Some y -> (i < j)%nat -> x < y.
Proof.
  intros Hs. revert i j. induction Hs as [| a l _ IH Hall]; intros i j Hi Hj Hij.
  - discriminate Hi.
  - destruct j as [| j]; [lia |]. simpl in Hj. destruct i as [| i].
    + injection Hi as <-. rewrite Forall_forall in Hall. apply Hall.
      eapply list_elem_of_lookup_2. exact Hj.
    + simpl in Hi. apply (IH i j Hi Hj). lia.
Qed.

Lemma count_if_take_le {A : Type} (p : A -> bool) (i j : nat) (l : list A) :
  (i <= j)%nat -> count_if p (take i l) <= count_if p (take j l).
Proof.
  intros Hij. replace (take i l) with (take i (take j l)).
  - apply count_if_take.
  - rewrite take_take. f_equal. lia.
Qed.

Lemma count_if_ext {A : Type} (p q : A -> bool) (l : list A) :
  (forall a, p a = q a) -> count_if p l = count_if q l.
Proof.
  intros H. induction l as [| a l IH]; [reflexivity |].
  rewrite !count_if_cons, H, IH. reflexivity.
Qed.

Lemma Qltb_eq_r (y v w : Q) : (v == w)%Q -> Qltb y v = Qltb y w.
Proof.
  intros Hvw. destruct (Qltb y w) eqn:E.
  - apply Qltb_lt. apply Qltb_lt in E. lra.
  - apply Qltb_ge. apply Qltb_ge in E. lra.
Qed.

Lemma Qeq_bool_eq_r (y v w : Q) : (v == w)%Q -> Qeq_bool y v = Qeq_bool y w.
Proof.
  intros Hvw. destruct (Qeq_bool y w) eqn:E.
  - apply Qeq_eq_bool. apply Qeq_bool_eq in E. lra.
  - apply not_true_iff_false. intros H. apply Qeq_bool_eq in H.
    apply Qeq_bool_neq in E. apply E. lra.
Qed.

(** Of two equal values the earlier one has the smaller rank. *)
Lemma rank_first_ties (x : list Q) (i j : nat) (v w ri rj : Q) :
  x !! i = Some v -> x !! j = Some w -> (v == w)%Q -> (i <= j)%nat ->
  rank_first x !! i = Some ri -> rank_first x !! j = Some rj ->
  (ri <= rj)%Q.
Proof.
  intros Hv Hw Hvw Hij Hi Hj.
  rewrite (rank_first_lookup x i v Hv) in Hi. injection Hi as <-.
  rewrite (rank_first_lookup x j w Hw) in Hj. injection Hj as <-.
  rewrite <- Zle_Qle.
  rewrite (count_if_ext (fun y => Qltb y v) (fun y => Qltb y w))
    by (intros y; apply Qltb_eq_r, Hvw).
  rewrite (count_if_ext (fun y => Qeq_bool y v) (fun y => Qeq_bool y w))
    by (intros y; apply Qeq_bool_eq_r, Hvw).
  pose proof (count_if_take_le (fun y => Qeq_bool y w) i j x Hij). lia.
Qed.

(** X20: ties are broken by customer id.  Of two customers with the same
    frequency the one with the smaller id never has the higher frequency
    score, and likewise for the monetary value and the monetary score. *)
Theorem f_m_score_ties_by_customer_id (analysis_date : option Z)
    (customer_data : list Transaction) (rfm_data : list SegmentedCustomer)
    (a b : SegmentedCustomer) :
  calculate_rfm analysis_date customer_data = Ok rfm_data ->
  a ∈ rfm_data -> b ∈ rfm_data ->
  rfm_customer_id (metrics (scored a)) < rfm_customer_id (metrics (scored b)) ->
  (Frequency (metrics (scored a)) = Frequency (metrics (scored b)) ->
   F_Score (scored a) <= F_Score (scored b)) /\
  ((Monetary (metrics (scored a)) == Monetary (metrics (scored b)))%Q ->
   M_Score (scored a) <= M_Score (scored b)).
Proof.
  intros H Ha Hb Hid.
  destruct (calculate_rfm_columns _ _ _ H) as (r & f & m & Hs & Hrows).
  destruct (score_columns_form _ _ _ _ Hs) as (_ & Hf & Hm).
  destruct (Hrows a Ha) as (i & Hia & _ & Hif & Him).
  destruct (Hrows b Hb) as (j & Hjb & _ & Hjf & Hjm).
  assert (Hij : (i <= j)%nat).
  { destruct (le_lt_dec i j) as [Hle | Hgt]; [exact Hle | exfalso].
    assert (Hsorted : StronglySorted Z.lt
              (map rfm_customer_id (rfm_metrics analysis_date customer_data))).
    { rewrite rfm_metrics_ids. apply cluster_keys_sorted. }
    assert (Hlt := StronglySorted_lookup_lt _ j i
              (rfm_customer_id (metrics (scored b)))
              (rfm_customer_id (metrics (scored a))) Hsorted).
    rewrite !list_lookup_fmap, Hia, Hjb in Hlt.
    specialize (Hlt eq_refl eq_refl Hgt). lia. }
  split; intros Hab.
  - set (x := map (fun c => inject_Z (Frequency c))
                  (rfm_metrics analysis_date customer_data)) in *.
    assert (Hxi : x !! i = Some (inject_Z (Frequency (metrics (scored a)))))
      by (unfold x; rewrite list_lookup_fmap, Hia; reflexivity).
    assert (Hxj : x !! j = Some (inject_Z (Frequency (metrics (scored b)))))
      by (unfold x; rewrite list_lookup_fmap, Hjb; reflexivity).
    eapply (pd_cut_ascending _ f i j _ _ _ _ Hf).
    + apply rank_first_lookup. exact Hxi.
    + apply rank_first_lookup. exact Hxj.
    + exact Hif.
    + exact Hjf.
    + eapply (rank_first_ties x i j); eauto using rank_first_lookup.
      rewrite Hab. reflexivity.
  - set (x := map Monetary (rfm_metrics analysis_date customer_data)) in *.
    assert (Hxi : x !! i = Some (Monetary (metrics (scored a))))
      by (unfold x; rewrite list_lookup_fmap, Hia; reflexivity).
    assert (Hxj : x !! j = Some (Monetary (metrics (scored b))))
      by (unfold x; rewrite list_lookup_fmap, Hjb; reflexivity).
    eapply (pd_cut_ascending _ m i j _ _ _ _ Hm).
    + apply rank_first_lookup. exact Hxi.
    + apply rank_first_lookup. exact Hxj.
    + exact Him.
    + exact Hjm.
    + eapply (rank_first_ties x i j); eauto using rank_first_lookup.
Qed.

Lemma f_m_score_ties_by_customer_id_witness :
  exists rfm_data a b,
    calculate_rfm None five_customers = Ok rfm_data /\
    rfm_data !! 0%nat = Some a /\ rfm_data !! 4%nat = Some b /\
    (Frequency (metrics (scored a)) = Frequency (metrics (scored b)) ->
     F_Score (scored a) <= F_Score (scored b)).
Proof.
  eexists _, _, _.
  split; [vm_compute; reflexivity |].
  split; [reflexivity |]. split; [reflexivity |].
  eapply (f_m_score_ties_by_customer_id None five_customers).
  - vm_compute. reflexivity.
  - eapply (list_elem_of_lookup_2 _ 0%nat). reflexivity.
  - eapply (list_elem_of_lookup_2 _ 4%nat). reflexivity.
  - vm_compute. reflexivity.
Defined.
